(** * STTFS: a shallow embedding of the DSL pipeline (parser, generator,
    template substitution and template renderer) of [src/core]. *)

From Stdlib Require Import String Ascii List ZArith Lia Bool.
Import ListNotations.
Open Scope string_scope.
Open Scope nat_scope.
Set Warnings "-register-all".


(* ================================================================== *)
(** ** Python dictionaries and strings *)

(** A Python [dict] keyed by strings, kept as an association list in
    insertion order (the order [dict.items()] iterates in). *)
Definition dict (V : Type) := list (string * V).

Fixpoint dict_get {V} (k : string) (d : dict V) : option V :=
  match d with
  | [] => None
  | (k', v) :: d' => if String.eqb k k' then Some v else dict_get k d'
  end.

(** [d[k] = v]: an existing key keeps its position, a new key goes last. *)
Fixpoint dict_set {V} (k : string) (v : V) (d : dict V) : dict V :=
  match d with
  | [] => [(k, v)]
  | (k', v') :: d' =>
      if String.eqb k k' then (k', v) :: d' else (k', v') :: dict_set k v d'
  end.

Fixpoint dict_remove {V} (k : string) (d : dict V) : dict V :=
  match d with
  | [] => []
  | (k', v') :: d' => if String.eqb k k' then dict_remove k d' else (k', v') :: dict_remove k d'
  end.

(** [del d[k]]: raises [KeyError] (here [None]) when [k] is absent. *)
Definition dict_del {V} (k : string) (d : dict V) : option (dict V) :=
  match dict_get k d with
  | None => None
  | Some _ => Some (dict_remove k d)
  end.

(** A Rocq [string] stands for a Python [str] all of whose code points
    are below 256: the character [c] is the code point [nat_of_ascii c]
    (Latin-1). The character classes below are Python's on that range. *)

(** The decimal digits ([str.isdecimal]; on this range, 0 to 9). *)
Definition is_digit (c : ascii) : bool :=
  let n := nat_of_ascii c in ((48 <=? n) && (n <=? 57))%nat.

Definition is_octdigit (c : ascii) : bool :=
  let n := nat_of_ascii c in ((48 <=? n) && (n <=? 55))%nat.

Definition is_ascii_letter (c : ascii) : bool :=
  let n := nat_of_ascii c in
  (((65 <=? n) && (n <=? 90)) || ((97 <=? n) && (n <=? 122)))%nat.

(** Python's [str.isspace] (and the [\s] of [re]): space, \t, \n, \v,
    \f, \r, the separators 28 to 31, NEL (133) and NBSP (160). *)
Definition is_space (c : ascii) : bool :=
  let n := nat_of_ascii c in
  ((n =? 32) || ((9 <=? n) && (n <=? 13)) || ((28 <=? n) && (n <=? 31))
   || (n =? 133) || (n =? 160))%nat.

(** [str.isdigit]: the decimal digits and the superscripts 2, 3 and 1
    (178, 179, 185), which are digits but not decimal. *)
Definition py_isdigit (c : ascii) : bool :=
  let n := nat_of_ascii c in
  (is_digit c || (n =? 178) || (n =? 179) || (n =? 185))%nat.

(** [str.isalpha]: the ASCII letters, the ordinal indicators 170 and 186,
    the micro sign 181, and the Latin-1 letters 192 to 255 but for the
    multiplication and division signs (215, 247). *)
Definition py_isalpha (c : ascii) : bool :=
  let n := nat_of_ascii c in
  (is_ascii_letter c || (n =? 170) || (n =? 181) || (n =? 186)
   || ((192 <=? n) && negb (n =? 215) && negb (n =? 247)))%nat.

(** [str.isalnum]: letters, digits and the vulgar fractions 188 to 190
    (numeric characters). *)
Definition py_isalnum (c : ascii) : bool :=
  let n := nat_of_ascii c in
  (py_isalpha c || py_isdigit c || ((188 <=? n) && (n <=? 190)))%nat.

Definition digit_val (c : ascii) : nat := (nat_of_ascii c - 48)%nat.

(** [str.strip()]. *)
Fixpoint lstrip (s : string) : string :=
  match s with
  | String c s' => if is_space c then lstrip s' else s
  | EmptyString => EmptyString
  end.

Definition py_strip (s : string) : string :=
  string_of_list_ascii (rev (list_ascii_of_string
    (lstrip (string_of_list_ascii (rev (list_ascii_of_string (lstrip s))))))).

(** The digits of [int(s, base)], single underscores allowed between
    them: the value read after [acc], and the number of digits read after
    [n]. *)
Fixpoint digit_run (base : Z) (is_d : ascii -> bool) (s : string) (acc : Z) (n : nat)
  : option (Z * nat) :=
  match s with
  | EmptyString => Some (acc, n)
  | String c s' =>
      if Ascii.eqb c "_"%char then
        match s' with
        | String d s'' =>
            if is_d d then digit_run base is_d s'' (base * acc + Z.of_nat (digit_val d))%Z (S n)
            else None
        | EmptyString => None
        end
      else if is_d c then digit_run base is_d s' (base * acc + Z.of_nat (digit_val c))%Z (S n)
      else None
  end.

(** The optional sign of [int()]. *)
Definition int_sign (s : string) : Z * string :=
  match s with
  | String c s' =>
      if Ascii.eqb c "-"%char then ((-1)%Z, s')
      else if Ascii.eqb c "+"%char then (1%Z, s') else (1%Z, s)
  | EmptyString => (1%Z, s)
  end.

(** Python's [int(s)]: surrounding white space, a sign, then decimal
    digits with single underscores between them; more than 4300 digits
    exceed the default limit of integer string conversion. [None] is the
    [ValueError]. *)
Definition py_int (s : string) : option Z :=
  let (sign, body) := int_sign (py_strip s) in
  match body with
  | String c r =>
      if is_digit c then
        match digit_run 10 is_digit r (Z.of_nat (digit_val c)) 1 with
        | Some (v, n) => if (n <=? 4300)%nat then Some (sign * v)%Z else None
        | None => None
        end
      else None
  | EmptyString => None
  end.

(** Python's [int(s, 8)] on a [str]: surrounding white space, a sign, an
    optional [0o] or [0O] prefix (after which an underscore may come
    first), then octal digits with single underscores between them (no
    digit limit for a power-of-two base). *)
Definition parse_octal (s : string) : option Z :=
  let (sign, body) := int_sign (py_strip s) in
  match body with
  | String c r =>
      match r with
      | String o r' =>
          if Ascii.eqb c "0"%char && (Ascii.eqb o "o"%char || Ascii.eqb o "O"%char) then
            match digit_run 8 is_octdigit r' 0 0 with
            | Some (v, S _) => Some (sign * v)%Z
            | _ => None
            end
          else if is_octdigit c then
            option_map (fun p => (sign * fst p)%Z) (digit_run 8 is_octdigit r (Z.of_nat (digit_val c)) 1)
          else None
      | EmptyString =>
          if is_octdigit c then Some (sign * Z.of_nat (digit_val c))%Z else None
      end
  | EmptyString => None
  end.

Definition backslash : ascii := ascii_of_nat 92.

(** [p in s] for strings: [p] occurs somewhere in [s]. *)
Fixpoint has_sub (p s : string) : bool :=
  String.prefix p s ||
  match s with
  | EmptyString => false
  | String _ s' => has_sub p s'
  end.

Fixpoint has_char (c : ascii) (s : string) : bool :=
  match s with
  | EmptyString => false
  | String c' s' => Ascii.eqb c c' || has_char c s'
  end.

(** Decimal rendering of a Python [int] ([str(z)]). *)
Fixpoint digits_of_pos (fuel : nat) (n : Z) (acc : string) : string :=
  match fuel with
  | O => acc
  | S f =>
      let d := String (ascii_of_nat (48 + Z.to_nat (n mod 10))) acc in
      if (n <? 10)%Z then d else digits_of_pos f (n / 10)%Z d
  end.

Definition py_str_int (z : Z) : string :=
  if (z <? 0)%Z then "-" ++ digits_of_pos 64 (- z) ""
  else digits_of_pos 64 z "".

(* ================================================================== *)
(** ** [re.sub] with a literal pattern *)

(** The replacement string of [re.sub] is a template (Python's
    [re._parser.parse_template]): it is parsed before any matching, so a
    malformed template raises even when nothing matches. The patterns of
    this program have no groups, so only group 0 (the match) exists. *)
Inductive ReplPiece := RLit (c : ascii) | RGroup0.

Definition escape_char (c : ascii) : option ascii :=
  match nat_of_ascii c with
  | 97 => Some (ascii_of_nat 7)    (* \a *)
  | 98 => Some (ascii_of_nat 8)    (* \b *)
  | 102 => Some (ascii_of_nat 12)  (* \f *)
  | 110 => Some (ascii_of_nat 10)  (* \n *)
  | 114 => Some (ascii_of_nat 13)  (* \r *)
  | 116 => Some (ascii_of_nat 9)   (* \t *)
  | 118 => Some (ascii_of_nat 11)  (* \v *)
  | 92 => Some backslash           (* \\ *)
  | _ => None
  end.

(** [s.getuntil(">")]: the text before the first [>] and what follows. *)
Fixpoint split_until (stop : ascii) (s : string) : option (string * string) :=
  match s with
  | EmptyString => None
  | String c s' =>
      if Ascii.eqb c stop then Some (EmptyString, s')
      else match split_until stop s' with
           | Some (a, b) => Some (String c a, b)
           | None => None
           end
  end.

(** A [\g<name>] group name denoting group 0 (decimal digits, value 0);
    other int()-parsable spellings such as [" 0"] are not modelled. *)
Fixpoint all_zero_digits (s : string) : bool :=
  match s with
  | EmptyString => true
  | String c s' => (nat_of_ascii c =? 48) && all_zero_digits s'
  end.

Definition is_group0_name (s : string) : bool :=
  match s with EmptyString => false | _ => all_zero_digits s end.

Fixpoint parse_repl (fuel : nat) (s : string) : option (list ReplPiece) :=
  match fuel with
  | O => None
  | S f =>
    match s with
    | EmptyString => Some []
    | String c rest =>
      if Ascii.eqb c backslash then
        match rest with
        | EmptyString => None                         (* bad escape (end of pattern) *)
        | String d rest' =>
          if Ascii.eqb d "g"%char then
            match rest' with
            | String lt r =>
                if Ascii.eqb lt "<"%char then
                  match split_until ">"%char r with
                  | Some (name, r2) =>
                      if is_group0_name name
                      then option_map (cons RGroup0) (parse_repl f r2)
                      else None                       (* unknown group *)
                  | None => None                      (* missing > *)
                  end
                else None                             (* missing < *)
            | EmptyString => None
            end
          else if Ascii.eqb d "0"%char then
            (* \0 followed by at most two more octal digits *)
            match rest' with
            | String e r2 =>
                if is_octdigit e then
                  match r2 with
                  | String g r3 =>
                      if is_octdigit g then
                        option_map (cons (RLit (ascii_of_nat
                          ((8 * digit_val e + digit_val g) mod 256))))
                          (parse_repl f r3)
                      else option_map (cons (RLit (ascii_of_nat (digit_val e))))
                             (parse_repl f r2)
                  | EmptyString => Some [RLit (ascii_of_nat (digit_val e))]
                  end
                else option_map (cons (RLit (ascii_of_nat 0))) (parse_repl f rest')
            | EmptyString => Some [RLit (ascii_of_nat 0)]
            end
          else if is_digit d then
            (* a group reference (no such group) or a 3-digit octal escape *)
            match rest' with
            | String e r2 =>
                if is_digit e && is_octdigit d && is_octdigit e then
                  match r2 with
                  | String g r3 =>
                      if is_octdigit g then
                        let v := 64 * digit_val d + 8 * digit_val e + digit_val g in
                        if 255 <? v then None
                        else option_map (cons (RLit (ascii_of_nat v))) (parse_repl f r3)
                      else None
                  | EmptyString => None
                  end
                else None
            | EmptyString => None
            end
          else
            match escape_char d with
            | Some ch => option_map (cons (RLit ch)) (parse_repl f rest')
            | None =>
                if is_ascii_letter d then None          (* bad escape *)
                else option_map (fun l => RLit backslash :: RLit d :: l)
                       (parse_repl f rest')
            end
        end
      else option_map (cons (RLit c)) (parse_repl f rest)
    end
  end.

Fixpoint expand_repl (ps : list ReplPiece) (m : string) : string :=
  match ps with
  | [] => EmptyString
  | RLit c :: ps' => String c (expand_repl ps' m)
  | RGroup0 :: ps' => m ++ expand_repl ps' m
  end.

(** Scan left to right, replacing non-overlapping occurrences of [pat]
    ([skip] counts the characters of a match still to be dropped). *)
Fixpoint sub_scan (pat out s : string) (skip : nat) : string :=
  match s with
  | EmptyString => EmptyString
  | String c rest =>
      match skip with
      | S k => sub_scan pat out rest k
      | O =>
          if String.prefix pat s
          then out ++ sub_scan pat out rest (pred (String.length pat))
          else String c (sub_scan pat out rest 0)
      end
  end.

(** [re.sub(re.escape-d literal pat, repl, s)] for a non-empty [pat]; the
    match text is always [pat] itself. *)
Definition re_sub_literal (pat repl s : string) : option string :=
  match parse_repl (S (String.length repl)) repl with
  | None => None
  | Some ps => Some (sub_scan pat (expand_repl ps pat) s 0)
  end.

Definition placeholder (name : string) : string := "${" ++ name ++ "}".

(** [InteractiveFSGenerator._apply_template_vars] (src/core/generator.py
    187-196; identical in src/core/generator/generator.py): one [re.sub]
    per binding, in insertion order, each on the previous result. *)
Definition apply_template_vars (text : string) (variables : dict string)
  : option string :=
  match variables with
  | [] => Some text
  | _ =>
      fold_left (fun acc kv =>
                   match acc with
                   | None => None
                   | Some result => re_sub_literal (placeholder (fst kv)) (snd kv) result
                   end) variables (Some text)
  end.

(** The spec's simple substitution, read as simultaneous: each [${name}]
    of the template whose name is bound is replaced by its value, other
    text is copied. Stated after the spec's wording, for comparison. *)
Fixpoint subst_simultaneous_scan (vars : dict string) (s : string) (skip : nat)
  : string :=
  match s with
  | EmptyString => EmptyString
  | String c rest =>
      match skip with
      | S k => subst_simultaneous_scan vars rest k
      | O =>
          if String.prefix "${" s then
            match split_until "}"%char (String.substring 2 (String.length s) s) with
            | Some (name, _) =>
                match dict_get name vars with
                | Some v => v ++ subst_simultaneous_scan vars rest (String.length name + 2)
                | None => String c (subst_simultaneous_scan vars rest 0)
                end
            | None => String c (subst_simultaneous_scan vars rest 0)
            end
          else String c (subst_simultaneous_scan vars rest 0)
      end
  end.

Definition subst_simultaneous (vars : dict string) (s : string) : string :=
  subst_simultaneous_scan vars s 0.

(** Sequential literal substitution: for each binding in insertion order,
    every occurrence of its placeholder in the current text is replaced. *)
Definition sequential_subst (vars : dict string) (t : string) : string :=
  fold_left (fun acc kv => sub_scan (placeholder (fst kv)) (snd kv) acc 0) vars t.

Definition values_without_backslash (vars : dict string) : Prop :=
  Forall (fun kv => has_char backslash (snd kv) = false) vars.

Fixpoint lit_pieces (s : string) : list ReplPiece :=
  match s with
  | EmptyString => []
  | String c s' => RLit c :: lit_pieces s'
  end.

(* ================================================================== *)
(** ** AST and attribute values (src/core/parser.py 6-51) *)

Inductive FileType := TEXT | BINARY | JSON | YAML | XML.

Inductive Permission := READ_ONLY | WRITABLE | EXECUTABLE | FULL.

(** An attribute value as [parse_attribute_value] produces it. *)
Inductive AttrValue :=
| AStr (s : string)
| AInt (z : Z)
| ABool (b : bool)
| ANull
| AFileType (t : FileType)
| APerm (p : Permission).

Definition attributes := dict AttrValue.

(** The [template_vars] of a [FileNode] are informational only (never read
    by the generator) and are left out. *)
Inductive ASTNode :=
| FileNode (name : string) (attrs : attributes)
| FolderNode (name : string) (children : list ASTNode) (attrs : attributes)
| ForLoopNode (var_name : string) (start end_ step : Z) (condition : string)
    (children : list ASTNode)
| OutputNode (message : string)
| InputNode (variable : string).

Definition file_type_value (t : FileType) : string :=
  match t with
  | TEXT => "text" | BINARY => "binary" | JSON => "json"
  | YAML => "yaml" | XML => "xml"
  end.

Definition file_type_name (t : FileType) : string :=
  match t with
  | TEXT => "TEXT" | BINARY => "BINARY" | JSON => "JSON"
  | YAML => "YAML" | XML => "XML"
  end.

(** [Permission.value]. *)
Definition permission_value (p : Permission) : string :=
  match p with
  | READ_ONLY => "444" | WRITABLE => "644" | EXECUTABLE => "755" | FULL => "777"
  end.

Definition permission_name (p : Permission) : string :=
  match p with
  | READ_ONLY => "READ_ONLY" | WRITABLE => "WRITABLE"
  | EXECUTABLE => "EXECUTABLE" | FULL => "FULL"
  end.

(** Python's [str(value)]. *)
Definition py_str_attr (v : AttrValue) : string :=
  match v with
  | AStr s => s
  | AInt z => py_str_int z
  | ABool true => "True"
  | ABool false => "False"
  | ANull => "None"
  | AFileType t => "FileType." ++ file_type_name t
  | APerm p => "Permission." ++ permission_name p
  end.

(** Python truthiness ([if v], [not v]); enum members are truthy. *)
Definition py_truthy (v : AttrValue) : bool :=
  match v with
  | AStr s => negb (String.eqb s "")
  | AInt z => negb (z =? 0)%Z
  | ABool b => b
  | ANull => false
  | AFileType _ | APerm _ => true
  end.

(** [attributes.get(key, default)]. *)
Definition attr_get (attrs : attributes) (key : string) (default : AttrValue)
  : AttrValue :=
  match dict_get key attrs with Some v => v | None => default end.

(* ================================================================== *)
(** ** Configuration (src/core/config.py) *)

(** The configuration dictionary handed to the generator
    ([FSConfig.get_config]). *)
Record Config := {
  file_contents : dict string;
  templates : dict string;
  defaults : dict AttrValue
}.

(** [FSConfig.__init__]. *)
Definition fsconfig_init : Config := {|
  file_contents := [];
  templates := [];
  defaults := [("encoding", AStr "utf-8"); ("replaceifexists", ABool true);
               ("type", AFileType TEXT); ("permissions", AStr "644");
               ("hidden", ABool false); ("executable", ABool false)]
|}.

Definition dict_update {V} (d upd : dict V) : dict V :=
  fold_left (fun acc kv => dict_set (fst kv) (snd kv) acc) upd d.

(** [FSConfig.load_from_dict] on a dictionary with the three sections
    (an absent section is passed as the empty dictionary). *)
Definition fsconfig_load_from_dict (c : Config) (fc tpl : dict string)
  (dflt : dict AttrValue) : Config := {|
  file_contents := fc;
  templates := tpl;
  defaults := dict_update (defaults c) dflt
|}.

(* ================================================================== *)
(** ** Library calls taken as parameters *)

(** Two library calls are not modelled character by character: the
    generator takes them as parameters, and every statement below holds
    for all of them, Python's own among them.
    - [re_match pattern name] is [re.match(pattern, name)]: [Some true]
      when it returns a match object, [Some false] when it returns [None],
      and [None] when it raises ([re.error] for an invalid pattern).
    - [encodes encoding text] tells whether [text] can be written with the
      codec [encoding] ([None]: the locale's, which [open] uses for
      [encoding=None]); it is false when the codec is unknown
      ([LookupError]) or cannot encode a character of the text
      ([UnicodeEncodeError]). *)
Definition ReMatch := string -> string -> option bool.
Definition Encodes := option string -> string -> bool.

(* ================================================================== *)
(** ** Content resolution ([_get_file_content], generator.py 85-111) *)

Definition nl : string := String (ascii_of_nat 10) EmptyString.
Definition dquote : string := String (ascii_of_nat 34) EmptyString.

(** The type-driven default bodies; [now] and [now_iso] stand for
    [str(datetime.now())] and [datetime.now().isoformat()]. *)
Definition default_content (file_type : AttrValue) (file_name now now_iso : string)
  : string :=
  match file_type with
  | AFileType TEXT => "# File: " ++ file_name ++ nl ++ "# Created: " ++ now ++ nl
  | AFileType JSON => "{" ++ nl ++ "  " ++ dquote ++ "name" ++ dquote ++ ": "
                       ++ dquote ++ file_name ++ dquote ++ nl ++ "}" ++ nl
  | AFileType YAML => "# " ++ file_name ++ nl ++ "created: " ++ now_iso ++ nl
  | AFileType XML => "<?xml version=" ++ dquote ++ "1.0" ++ dquote ++ "?>" ++ nl
                      ++ "<root>" ++ nl ++ "  <file>" ++ file_name ++ "</file>" ++ nl
                      ++ "</root>" ++ nl
  | AFileType BINARY => ""
  | _ => ""                      (* defaults.get(file_type, "") *)
  end.

Section Generator.

Variable re_match : ReMatch.
Variable encodes : Encodes.

(** [for pattern, content in file_contents.items(): if re.match(...)]:
    [Some (Some c)] on the first match, [Some None] when none matches,
    [None] when a pattern tried raises [re.error]. *)
Fixpoint first_pattern_match (fc : dict string) (file_name : string)
  : option (option string) :=
  match fc with
  | [] => Some None
  | (pat, content) :: fc' =>
      match re_match pat file_name with
      | None => None
      | Some true => Some (Some content)
      | Some false => first_pattern_match fc' file_name
      end
  end.

Definition template_lookup (tpl : dict string) (v : AttrValue) : option string :=
  match v with
  | AStr name => dict_get name tpl
  | _ => None     (* a non-string is never a key of the templates map *)
  end.

Definition get_file_content (cfg : Config) (attrs : attributes)
  (file_name now now_iso : string) : option string :=
  match dict_get "content" attrs with
  | Some v => Some (py_str_attr v)
  | None =>
    match match dict_get "template" attrs with
          | Some t => template_lookup (templates cfg) t
          | None => None
          end with
    | Some s => Some s
    | None =>
      match dict_get file_name (file_contents cfg) with
      | Some s => Some s
      | None =>
        match first_pattern_match (file_contents cfg) file_name with
        | None => None
        | Some (Some s) => Some s
        | Some None =>
            Some (default_content (attr_get attrs "type" (AFileType TEXT))
                    file_name now now_iso)
        end
      end
    end
  end.

(* ================================================================== *)
(** ** File system and generator state *)

(** Paths are compared as strings (no normalisation of [.], [..] or
    repeated separators). A written file keeps its text and the encoding it
    was written with. *)
Record FileData := { fd_content : string; fd_encoding : string }.

(** Calls into the platform attribute primitives ([os.chmod] and the
    executable bit); on POSIX the [hidden] attribute has no effect. *)
Inductive AttrCall :=
| Chmod (path : string) (mode : Z)
| AddExec (path : string).

Record GenState := {
  variables : dict string;
  files : dict FileData;
  dirs : list string;
  attr_calls : list AttrCall;
  stdout : list string;         (* text written by each print *)
  stdin : list string           (* lines still to be read by input() *)
}.

Definition set_variables (vs : dict string) (st : GenState) : GenState :=
  {| variables := vs; files := files st; dirs := dirs st;
     attr_calls := attr_calls st; stdout := stdout st; stdin := stdin st |}.

Definition set_stdin (inp : list string) (st : GenState) : GenState :=
  {| variables := variables st; files := files st; dirs := dirs st;
     attr_calls := attr_calls st; stdout := stdout st; stdin := inp |}.

Definition set_fs (fs : dict FileData) (ds : list string) (st : GenState) : GenState :=
  {| variables := variables st; files := fs; dirs := ds;
     attr_calls := attr_calls st; stdout := stdout st; stdin := stdin st |}.

Definition add_attr_call (c : AttrCall) (st : GenState) : GenState :=
  {| variables := variables st; files := files st; dirs := dirs st;
     attr_calls := app (attr_calls st) [c]; stdout := stdout st; stdin := stdin st |}.

(** [print(msg, end='')]. *)
Definition print_raw (msg : string) (st : GenState) : GenState :=
  {| variables := variables st; files := files st; dirs := dirs st;
     attr_calls := attr_calls st; stdout := app (stdout st) [msg]; stdin := stdin st |}.

(** [print(msg)]. *)
Definition print_line (msg : string) (st : GenState) : GenState :=
  print_raw (msg ++ nl) st.

Definition set_var (k v : string) (st : GenState) : GenState :=
  set_variables (dict_set k v (variables st)) st.

Definition is_dir (st : GenState) (p : string) : bool :=
  existsb (String.eqb p) (dirs st).

Definition is_file (st : GenState) (p : string) : bool :=
  match dict_get p (files st) with Some _ => true | None => false end.

(** [os.path.exists]. *)
Definition path_exists (st : GenState) (p : string) : bool :=
  is_file st p || is_dir st p.

Definition last_char_is (c : ascii) (s : string) : bool :=
  match String.length s with
  | O => false
  | S n => match String.get n s with Some d => Ascii.eqb c d | None => false end
  end.

(** [os.path.join(a, b)] (posixpath). *)
Definition os_path_join (a b : string) : string :=
  if String.prefix "/" b then b
  else if String.eqb a "" || last_char_is "/"%char a then a ++ b
  else a ++ "/" ++ b.

(** [p[:p.rfind('/') + 1]]. *)
Fixpoint dir_head (s : string) : string :=
  match s with
  | EmptyString => EmptyString
  | String c s' =>
      if has_char "/"%char s' then String c (dir_head s')
      else if Ascii.eqb c "/"%char then "/" else EmptyString
  end.

Fixpoint all_slashes (s : string) : bool :=
  match s with
  | EmptyString => true
  | String c s' => Ascii.eqb c "/"%char && all_slashes s'
  end.

(** [s.rstrip('/')]. *)
Fixpoint rstrip_slash (s : string) : string :=
  match s with
  | EmptyString => EmptyString
  | String c s' => if all_slashes s then EmptyString else String c (rstrip_slash s')
  end.

(** [os.path.dirname] (posixpath). *)
Definition os_path_dirname (p : string) : string :=
  let head := dir_head p in
  if negb (String.eqb head "") && negb (all_slashes head) then rstrip_slash head
  else head.

(** The proper ancestors [p[:i]] ([p[i] = '/'], [i > 0]) of a path. *)
Fixpoint ancestors_from (prefix s : string) : list string :=
  match s with
  | EmptyString => []
  | String c s' =>
      let rest := ancestors_from (prefix ++ String c EmptyString) s' in
      if Ascii.eqb c "/"%char && negb (String.eqb prefix "") then prefix :: rest else rest
  end.

(** [os.makedirs(p, exist_ok=True)]: fails on the empty path and when [p]
    or one of its ancestors is a file; otherwise every missing directory
    on the way is created. *)
Definition makedirs (p : string) (st : GenState) : option GenState :=
  if String.eqb p "" then None
  else
    let chain := app (ancestors_from "" p) [p] in
    if existsb (is_file st) chain then None
    else Some (set_fs (files st)
                 (app (dirs st) (filter (fun d => negb (is_dir st d)) chain)) st).


(** [os.chmod(path, mode)] in a [try] with a bare [except]: a mode that
    does not fit a C [int] raises [OverflowError], which is swallowed, and
    no chmod happens. *)
Definition try_chmod (path : string) (mode : Z) (st : GenState) : GenState :=
  if ((-2147483648 <=? mode) && (mode <=? 2147483647))%Z
  then add_attr_call (Chmod path mode) st else st.

(** [_create_folder] (generator.py 58-74), on POSIX: [int(permissions, 8)]
    raises [TypeError] for a [permissions] that is not a [str], and
    [ValueError] for a [str] that is not an octal literal; either is
    swallowed and the chmod skipped. *)
Definition create_folder (path : string) (attrs : attributes) (st : GenState)
  : option GenState :=
  let permissions := attr_get attrs "permissions" (AStr "755") in
  match makedirs path st with
  | None => None
  | Some st1 =>
      let st2 := match permissions with
                 | AStr s => match parse_octal s with
                             | Some m => try_chmod path m st1
                             | None => st1
                             end
                 | _ => st1
                 end in
      Some (print_line ("Created folder: " ++ path) st2)
  end.

(** [_apply_file_attributes] (generator.py 137-154), on POSIX. *)
Definition apply_file_attributes (path : string) (attrs : attributes)
  (st : GenState) : GenState :=
  let st1 := match dict_get "permissions" attrs with
             | Some p =>
                 if py_truthy p then
                   match parse_octal (py_str_attr p) with
                   | Some m => try_chmod path m st
                   | None => st
                   end
                 else st
             | None => st
             end in
  if py_truthy (attr_get attrs "executable" (ABool false))
  then add_attr_call (AddExec path) st1 else st1.

Definition skip_message (path : string) : string :=
  String (ascii_of_nat 27) "[1;31m!  Skipped existing file: " ++ path.

(** Whether the content can be written with the encoding: a binary file
    is written from [content.encode(encoding)], which needs a [str]
    encoding; a text file is opened with [encoding=encoding], which needs a
    [str] or [None]. *)
Definition encoding_ok (file_type encoding : AttrValue) (content : string) : bool :=
  match file_type, encoding with
  | AFileType BINARY, AStr e => encodes (Some e) content
  | AFileType BINARY, _ => false
  | _, AStr e => encodes (Some e) content
  | _, ANull => encodes None content
  | _, _ => false
  end.

(** [_create_file] (generator.py 113-135). Opening a directory for
    writing fails; [content.encode(encoding)] needs a [str] encoding and
    [open(..., encoding=...)] a [str] or [None], and either fails when the
    codec cannot write the content; the final message reads
    [file_type.value], which fails for a [type] that is neither a
    [FileType] nor a [Permission]. *)
Definition create_file (path content : string) (attrs : attributes)
  (st : GenState) : option GenState :=
  let replace_if_exists := attr_get attrs "replaceifexists" (ABool true) in
  if path_exists st path && negb (py_truthy replace_if_exists) then
    Some (print_line (skip_message path) st)
  else
    match makedirs (os_path_dirname path) st with
    | None => None
    | Some st1 =>
      let encoding := attr_get attrs "encoding" (AStr "utf-8") in
      let file_type := attr_get attrs "type" (AFileType TEXT) in
      if negb (encoding_ok file_type encoding content) || is_dir st1 path then None
      else
        let st2 := set_fs (dict_set path {| fd_content := content;
                                            fd_encoding := py_str_attr encoding |}
                                    (files st1)) (dirs st1) st1 in
        let st3 := apply_file_attributes path attrs st2 in
        match file_type with
        | AFileType t =>
            Some (print_line ("Created file: " ++ path ++ " (" ++ file_type_value t
                              ++ ", encoding: " ++ py_str_attr encoding ++ ")") st3)
        | APerm p =>
            Some (print_line ("Created file: " ++ path ++ " (" ++ permission_value p
                              ++ ", encoding: " ++ py_str_attr encoding ++ ")") st3)
        | _ => None
        end
    end.

(** [_generate_file] (generator.py 76-83); [now]/[now_iso] are the clock
    readings taken by the default bodies. *)
Definition generate_file (cfg : Config) (current_path name : string)
  (attrs : attributes) (now now_iso : string) (st : GenState) : option GenState :=
  match apply_template_vars name (variables st) with
  | None => None
  | Some file_name =>
      let path := os_path_join current_path file_name in
      match get_file_content cfg attrs file_name now now_iso with
      | None => None
      | Some content =>
          match apply_template_vars content (variables st) with
          | None => None
          | Some content' => create_file path content' attrs st
          end
      end
  end.

(* ================================================================== *)
(** ** The interpreter ([InteractiveFSGenerator], generator.py) *)

(** [condition_func] of [_generate_for_loop] (generator.py 159-168). *)
Definition condition_holds (condition : string) (end_ : Z) (x : Z) : bool :=
  if String.eqb condition "<" then (x <? end_)%Z
  else if String.eqb condition "<=" then (x <=? end_)%Z
  else if String.eqb condition ">" then (end_ <? x)%Z
  else if String.eqb condition ">=" then (end_ <=? x)%Z
  else negb (x =? end_)%Z.

(** The value list of [while condition_func(i): values.append(i); i += step]
    (generator.py 170-173), as the big-step relation of the loop: it only
    relates a start value to a list when the loop stops. *)
Inductive loop_values (cond : Z -> bool) (step : Z) : Z -> list Z -> Prop :=
| LV_stop i : cond i = false -> loop_values cond step i []
| LV_next i vs :
    cond i = true -> loop_values cond step (i + step)%Z vs ->
    loop_values cond step i (i :: vs).

(** The same loop run for at most [fuel] iterations ([None]: not stopped). *)
Fixpoint loop_values_fuel (fuel : nat) (cond : Z -> bool) (step i : Z)
  : option (list Z) :=
  match fuel with
  | O => None
  | S f =>
      if cond i then option_map (cons i) (loop_values_fuel f cond step (i + step)%Z)
      else Some []
  end.

(** Restoring the loop variable after an iteration (generator.py 182-185):
    [del] raises [KeyError] when the name is gone. *)
Definition restore_var (name : string) (old : option string) (st : GenState)
  : option GenState :=
  match old with
  | Some v => Some (set_var name v st)
  | None =>
      match dict_del name (variables st) with
      | Some vs => Some (set_variables vs st)
      | None => None
      end
  end.

(** Terminating runs of [_generate_node] (on a node), of a child list and of
    the iterations of a loop body. A run that raises or never returns has no
    derivation. The clock readings of a file's default body are free. *)
Inductive exec_node (cfg : Config) : string -> ASTNode -> GenState -> GenState -> Prop :=
| E_File cur name attrs now now_iso st st' :
    generate_file cfg cur name attrs now now_iso st = Some st' ->
    exec_node cfg cur (FileNode name attrs) st st'
| E_Folder cur name children attrs folder_name st st1 st2 :
    apply_template_vars name (variables st) = Some folder_name ->
    create_folder (os_path_join cur folder_name) attrs st = Some st1 ->
    exec_nodes cfg (os_path_join cur folder_name) children st1 st2 ->
    exec_node cfg cur (FolderNode name children attrs) st st2
| E_ForLoop cur var_name start end_ step condition children values st st' :
    loop_values (condition_holds condition end_) step start values ->
    exec_iters cfg cur var_name children values st st' ->
    exec_node cfg cur (ForLoopNode var_name start end_ step condition children) st st'
| E_Output cur message msg st :
    apply_template_vars message (variables st) = Some msg ->
    exec_node cfg cur (OutputNode message) st (print_raw msg st)
| E_Input cur variable line rest st :
    stdin st = line :: rest ->
    exec_node cfg cur (InputNode variable) st (set_var variable line (set_stdin rest st))
with exec_nodes (cfg : Config) : string -> list ASTNode -> GenState -> GenState -> Prop :=
| EN_nil cur st : exec_nodes cfg cur [] st st
| EN_cons cur n ns st st1 st2 :
    exec_node cfg cur n st st1 -> exec_nodes cfg cur ns st1 st2 ->
    exec_nodes cfg cur (n :: ns) st st2
with exec_iters (cfg : Config) : string -> string -> list ASTNode -> list Z ->
                                 GenState -> GenState -> Prop :=
| EI_nil cur var_name children st : exec_iters cfg cur var_name children [] st st
| EI_cons cur var_name children value values st st1 st2 st3 :
    exec_nodes cfg cur children (set_var var_name (py_str_int value) st) st1 ->
    restore_var var_name (dict_get var_name (variables st)) st1 = Some st2 ->
    exec_iters cfg cur var_name children values st2 st3 ->
    exec_iters cfg cur var_name children (value :: values) st st3.

(** The generator's initial state: [date] and [time] bound (generator.py
    15-17) on a given file system and input. *)
Definition initial_state (date time : string) (fs : dict FileData)
  (ds : list string) (inp : list string) : GenState := {|
  variables := [("date", date); ("time", time)];
  files := fs; dirs := ds; attr_calls := []; stdout := []; stdin := inp
|}.

(** [generate] (generator.py 19-27). *)
Inductive generate (cfg : Config) (base_path : string) (nodes : list ASTNode)
  : GenState -> GenState -> Prop :=
| G_run st st1 st2 :
    makedirs base_path st = Some st1 ->
    exec_nodes cfg base_path nodes
      (print_line "Starting file system generation..." st1) st2 ->
    generate cfg base_path nodes st (print_line "Generation completed successfully!" st2).

(* ================================================================== *)
(** ** The spec's reading of content resolution *)

Fixpoint first_some (rules : list (option string)) (fallback : string) : string :=
  match rules with
  | [] => fallback
  | Some s :: _ => s
  | None :: rules' => first_some rules' fallback
  end.

(** A pattern matches a name from its start: [re.match] returns a match. *)
Definition pattern_matches (pattern name : string) : bool :=
  match re_match pattern name with Some true => true | _ => false end.

(** The five rules of the spec's content precedence, first match winning:
    the [content] attribute, the named template, the exact file name, the
    first key (in declaration order) whose pattern matches the name from
    its start, and the type-driven default body (type [text] by default). *)
Definition resolve_content_spec (cfg : Config) (attrs : attributes)
  (file_name now now_iso : string) : string :=
  first_some
    [ option_map py_str_attr (dict_get "content" attrs);
      match dict_get "template" attrs with
      | Some t => template_lookup (templates cfg) t
      | None => None
      end;
      dict_get file_name (file_contents cfg);
      option_map snd (find (fun kv => pattern_matches (fst kv) file_name)
                        (file_contents cfg)) ]
    (default_content (attr_get attrs "type" (AFileType TEXT)) file_name now now_iso).

End Generator.

Scheme exec_node_mut := Induction for exec_node Sort Prop
with exec_nodes_mut := Induction for exec_nodes Sort Prop
with exec_iters_mut := Induction for exec_iters Sort Prop.

(* ================================================================== *)
(** ** Tokens and the parser (lexer.py, parser.py) *)

Inductive TokenType :=
| FOLDER | FILE | FOR | IF | ELSE | STDOUT | STDIN
| IDENTIFIER | STRING | NUMBER
| ASSIGN | EQ | NE | LT | GT | LE | GE
| PLUS | MINUS | MUL | DIV | MOD | INCR | DECR | LSHIFT | RSHIFT
| LPAREN | RPAREN | LBRACE | RBRACE | LBRACKET | RBRACKET
| COMMA | COLON | SEMICOLON | TEMPLATE_VAR | EOF.

Scheme Equality for TokenType.

(** [str(TokenType.X)]. *)
Definition token_type_name (t : TokenType) : string :=
  "TokenType." ++
  match t with
  | FOLDER => "FOLDER" | FILE => "FILE" | FOR => "FOR" | IF => "IF"
  | ELSE => "ELSE" | STDOUT => "STDOUT" | STDIN => "STDIN"
  | IDENTIFIER => "IDENTIFIER" | STRING => "STRING" | NUMBER => "NUMBER"
  | ASSIGN => "ASSIGN" | EQ => "EQ" | NE => "NE" | LT => "LT" | GT => "GT"
  | LE => "LE" | GE => "GE" | PLUS => "PLUS" | MINUS => "MINUS"
  | MUL => "MUL" | DIV => "DIV" | MOD => "MOD" | INCR => "INCR"
  | DECR => "DECR" | LSHIFT => "LSHIFT" | RSHIFT => "RSHIFT"
  | LPAREN => "LPAREN" | RPAREN => "RPAREN" | LBRACE => "LBRACE"
  | RBRACE => "RBRACE" | LBRACKET => "LBRACKET" | RBRACKET => "RBRACKET"
  | COMMA => "COMMA" | COLON => "COLON" | SEMICOLON => "SEMICOLON"
  | TEMPLATE_VAR => "TEMPLATE_VAR" | EOF => "EOF"
  end.

Record Token := mkToken { ttype : TokenType; tvalue : string; tline : Z; tcol : Z }.

(** [Token(TokenType.EOF, "")], with the constructor's defaults line=1,
    column=1, which [eat] installs once the list is used up. *)
Definition eof_default : Token := mkToken EOF "" 1 1.

(** [Token.__repr__]. *)
Definition token_repr (t : Token) : string :=
  "Token(" ++ token_type_name (ttype t) ++ ", '" ++ tvalue t ++ "', line="
  ++ py_str_int (tline t) ++ ")".


(** [str.lower]: the capitals A to Z and 192 to 222 (but for the
    multiplication sign 215) move up by 32; every other character below 256
    is its own lower case. *)
Definition ascii_lower (c : ascii) : ascii :=
  let n := nat_of_ascii c in
  if ((65 <=? n) && (n <=? 90)) || ((192 <=? n) && (n <=? 222) && negb (n =? 215))
  then ascii_of_nat (n + 32) else c.

Fixpoint lower (s : string) : string :=
  match s with
  | EmptyString => EmptyString
  | String c s' => String (ascii_lower c) (lower s')
  end.

(** [FileType(v)] for the five accepted lower-case names. *)
Definition file_type_of_value (v : string) : option FileType :=
  if String.eqb v "text" then Some TEXT
  else if String.eqb v "binary" then Some BINARY
  else if String.eqb v "json" then Some JSON
  else if String.eqb v "yaml" then Some YAML
  else if String.eqb v "xml" then Some XML
  else None.

(** [Permission(v)] for the four accepted literals. *)
Definition permission_of_value (v : string) : option Permission :=
  if String.eqb v "444" then Some READ_ONLY
  else if String.eqb v "644" then Some WRITABLE
  else if String.eqb v "755" then Some EXECUTABLE
  else if String.eqb v "777" then Some FULL
  else None.

(** The comparison operators [parse_for_loop] accepts. *)
Definition accepted_ops : list string := ["<"; "<="; ">"; ">="; "!="].

Definition is_accepted_op (op : string) : bool :=
  existsb (String.eqb op) accepted_ops.

(** Parser state: [self.pos] and [self.current_token] ([None] when the
    parser was built on an empty list). *)
Record PState := mkPState { pos : nat; cur : option Token }.

(** What a parse can raise: [SyntaxError] from [error] (message, and the
    line and column it reports), [AttributeError] from reading [.type] of
    [None], [ValueError] from [int()]. [OutOfFuel] only bounds the model's
    recursion; the parser itself consumes a token per statement. *)
Inductive PErr :=
| SyntaxError (msg : string) (line col : Z)
| AttributeError
| ValueError
| OutOfFuel.

Inductive PRes (A : Type) :=
| POk (a : A) (s : PState)
| PFail (e : PErr) (s : PState).
Arguments POk {A} a s.
Arguments PFail {A} e s.

Definition res_state {A} (r : PRes A) : PState :=
  match r with POk _ s => s | PFail _ s => s end.

(** The parser's methods as functions of its state that either return or
    raise. *)
Definition PM (A : Type) := PState -> PRes A.

Definition pret {A} (a : A) : PM A := fun s => POk a s.

Definition pbind {A B} (m : PM A) (k : A -> PM B) : PM B :=
  fun s => match m s with
           | POk a s' => k a s'
           | PFail e s' => PFail e s'
           end.

Definition praise {A} (e : PErr) : PM A := fun s => PFail e s.

Notation "x <- m ;; k" := (pbind m (fun x => k))
  (at level 61, m at next level, right associativity).

(** [self.current_token], whose attributes are read next. *)
Definition cur_tok : PM Token :=
  fun s => match cur s with
           | Some t => POk t s
           | None => PFail AttributeError s
           end.

(** [Parser.error]. *)
Definition error {A} (message : string) : PM A :=
  fun s => match cur s with
           | Some t => PFail (SyntaxError message (tline t) (tcol t)) s
           | None => PFail AttributeError s
           end.

Section Parser.

(** [self.tokens]. *)
Variable tokens : list Token.

(** [Parser.__init__]. *)
Definition init_pstate : PState := mkPState 0 (hd_error tokens).

(** The advance of [eat]: [self.pos += 1], then the token there, or a fresh
    EOF token past the end of the list. *)
Definition advance : PM unit :=
  fun s => let p := S (pos s) in
           POk tt (mkPState p (Some match nth_error tokens p with
                                    | Some t => t
                                    | None => eof_default
                                    end)).

(** [Parser.eat]. *)
Definition eat (token_type : TokenType) (value : option string) : PM unit :=
  t <- cur_tok ;;
  if TokenType_beq (ttype t) token_type then
    match value with
    | Some v =>
        if String.eqb (tvalue t) v then advance
        else error ("Expected '" ++ v ++ "', got '" ++ tvalue t ++ "'")
    | None => advance
    end
  else error ("Expected token " ++ token_type_name token_type ++ ", got "
              ++ token_type_name (ttype t)).

(** [parse_output]. *)
Definition parse_output : PM ASTNode :=
  _ <- eat STDOUT None ;;
  _ <- eat LSHIFT None ;;
  t <- cur_tok ;;
  if TokenType_beq (ttype t) STRING then
    _ <- eat STRING None ;; pret (OutputNode (tvalue t))
  else error "Expected string after <<".

(** [parse_input]. *)
Definition parse_input : PM ASTNode :=
  _ <- eat STDIN None ;;
  _ <- eat RSHIFT None ;;
  t <- cur_tok ;;
  if TokenType_beq (ttype t) IDENTIFIER then
    _ <- eat IDENTIFIER None ;; pret (InputNode (tvalue t))
  else error "Expected variable identifier after >>".

(** [parse_attribute_value]. *)
Definition parse_attribute_value : PM AttrValue :=
  t <- cur_tok ;;
  match ttype t with
  | STRING =>
      _ <- eat STRING None ;;
      let value := tvalue t in
      match file_type_of_value (lower value) with
      | Some ft => pret (AFileType ft)
      | None =>
          match permission_of_value value with
          | Some p => pret (APerm p)
          | None => pret (AStr value)
          end
      end
  | NUMBER =>
      match py_int (tvalue t) with
      | Some z => _ <- eat NUMBER None ;; pret (AInt z)
      | None => praise ValueError
      end
  | IDENTIFIER =>
      let l := lower (tvalue t) in
      if String.eqb l "true" || String.eqb l "false" then
        _ <- eat IDENTIFIER None ;; pret (ABool (String.eqb l "true"))
      else if String.eqb l "null" then
        _ <- eat IDENTIFIER None ;; pret ANull
      else
        _ <- eat IDENTIFIER None ;; pret (AStr (tvalue t))
  | _ => error "Unsupported attribute value type"
  end.

(** The loop of [parse_attributes], run for at most [fuel] attributes. *)
Fixpoint parse_attribute_list (fuel : nat) (attrs : attributes)
  : PM attributes :=
  match fuel with
  | O => praise OutOfFuel
  | S f =>
      t <- cur_tok ;;
      if TokenType_beq (ttype t) RPAREN then pret attrs
      else if negb (TokenType_beq (ttype t) IDENTIFIER) then
        error "Expected attribute name"
      else
        _ <- eat IDENTIFIER None ;;
        _ <- eat ASSIGN None ;;
        v <- parse_attribute_value ;;
        t' <- cur_tok ;;
        _ <- (if TokenType_beq (ttype t') COMMA then eat COMMA None
              else pret tt) ;;
        parse_attribute_list f (dict_set (tvalue t) v attrs)
  end.

(** [parse_attributes]. *)
Definition parse_attributes (fuel : nat) : PM attributes :=
  _ <- eat LPAREN None ;;
  attrs <- parse_attribute_list fuel [] ;;
  _ <- eat RPAREN None ;;
  pret attrs.

(** [while self.current_token.type != TokenType.RBRACE: ...] collecting the
    children of a block; [stmt] is [parse_statement]. A node object is
    always truthy, so every child is kept. *)
Fixpoint parse_block (stmt : PM ASTNode) (fuel : nat) : PM (list ASTNode) :=
  match fuel with
  | O => praise OutOfFuel
  | S f =>
      t <- cur_tok ;;
      if TokenType_beq (ttype t) RBRACE then pret []
      else c <- stmt ;; cs <- parse_block stmt f ;; pret (c :: cs)
  end.

(** The name of a folder or file: an IDENTIFIER or a STRING. *)
Definition parse_name (message : string) : PM string :=
  t <- cur_tok ;;
  if TokenType_beq (ttype t) IDENTIFIER || TokenType_beq (ttype t) STRING then
    _ <- eat (ttype t) None ;; pret (tvalue t)
  else error message.

(** The optional attribute list after a name. *)
Definition parse_opt_attributes (fuel : nat) : PM attributes :=
  t <- cur_tok ;;
  if TokenType_beq (ttype t) LPAREN then parse_attributes fuel else pret [].

(** [parse_folder]. *)
Definition parse_folder (stmt : PM ASTNode) (fuel : nat) : PM ASTNode :=
  _ <- eat FOLDER None ;;
  name <- parse_name "Expected folder name" ;;
  attrs <- parse_opt_attributes fuel ;;
  _ <- eat LBRACE None ;;
  children <- parse_block stmt fuel ;;
  _ <- eat RBRACE None ;;
  pret (FolderNode name children attrs).

(** [parse_file]. *)
Definition parse_file (fuel : nat) : PM ASTNode :=
  _ <- eat FILE None ;;
  name <- parse_name "Expected file name" ;;
  attrs <- parse_opt_attributes fuel ;;
  pret (FileNode name attrs).

(** The start or end bound of a loop header: a NUMBER token passed to
    [int()]. *)
Definition parse_bound (message : string) : PM Z :=
  t <- cur_tok ;;
  if TokenType_beq (ttype t) NUMBER then
    match py_int (tvalue t) with
    | Some z => _ <- eat NUMBER None ;; pret z
    | None => praise ValueError
    end
  else error message.

(** The check that the condition or step position repeats the loop
    variable, and the [eat] of that identifier. *)
Definition expect_loop_var (var_name : string) : PM unit :=
  t <- cur_tok ;;
  if negb (TokenType_beq (ttype t) IDENTIFIER) || negb (String.eqb (tvalue t) var_name)
  then error ("Expected loop variable '" ++ var_name ++ "'")
  else eat IDENTIFIER None.

(** [parse_for_loop]. *)
Definition parse_for_loop (stmt : PM ASTNode) (fuel : nat) : PM ASTNode :=
  _ <- eat FOR None ;;
  _ <- eat LBRACKET None ;;
  t <- cur_tok ;;
  if negb (TokenType_beq (ttype t) IDENTIFIER) then error "Expected loop variable name"
  else
  let var_name := tvalue t in
  _ <- eat IDENTIFIER None ;;
  _ <- eat ASSIGN None ;;
  start <- parse_bound "Expected numeric start value" ;;
  _ <- eat SEMICOLON None ;;
  _ <- expect_loop_var var_name ;;
  op <- cur_tok ;;
  let condition_op := tvalue op in
  if negb (is_accepted_op condition_op) then
    error ("Unsupported comparison operator: " ++ condition_op)
  else
  _ <- eat (ttype op) None ;;
  end_ <- parse_bound "Expected numeric end value" ;;
  _ <- eat SEMICOLON None ;;
  _ <- expect_loop_var var_name ;;
  st <- cur_tok ;;
  step <- (if TokenType_beq (ttype st) INCR then _ <- eat INCR None ;; pret 1%Z
           else if TokenType_beq (ttype st) DECR then _ <- eat DECR None ;; pret (-1)%Z
           else error "Expected increment/decrement operator") ;;
  _ <- eat RBRACKET None ;;
  _ <- eat LBRACE None ;;
  children <- parse_block stmt fuel ;;
  _ <- eat RBRACE None ;;
  pret (ForLoopNode var_name start end_ step condition_op children).

(** [parse_statement], for nestings of depth below [fuel]. *)
Fixpoint parse_statement (fuel : nat) : PM ASTNode :=
  match fuel with
  | O => praise OutOfFuel
  | S f =>
      t <- cur_tok ;;
      match ttype t with
      | FOLDER => parse_folder (parse_statement f) f
      | FILE => parse_file f
      | FOR => parse_for_loop (parse_statement f) f
      | STDOUT => parse_output
      | STDIN => parse_input
      | _ => error ("Unexpected token: " ++ token_repr t)
      end
  end.

(** The loop of [parse]: statements up to the current EOF token. *)
Fixpoint parse_nodes (fuel : nat) : PM (list ASTNode) :=
  match fuel with
  | O => praise OutOfFuel
  | S f =>
      t <- cur_tok ;;
      if TokenType_beq (ttype t) EOF then pret []
      else n <- parse_statement f ;; ns <- parse_nodes f ;; pret (n :: ns)
  end.

(** [Parser(tokens).parse()]. *)
Definition parse (fuel : nat) : PRes (list ASTNode) :=
  parse_nodes fuel init_pstate.

End Parser.

(** A stream as [Lexer.tokenize] ends it: tokens other than EOF, then
    [Token(TokenType.EOF, "", line, 0)]. *)
Definition terminated_stream (ts : list Token) (line : Z) : list Token :=
  app ts [mkToken EOF "" line 0].

(** The tokens of a loop header: FOR, LBRACKET, the variable, ASSIGN, the
    start, SEMICOLON, the condition's variable, the operator, the end,
    SEMICOLON, the step's variable, the step operator, RBRACKET and LBRACE. *)
Definition for_header (tf tlb tv ta tn1 tsc1 c o tn2 tsc2 sv st trb tlbr : Token)
  : list Token :=
  [tf; tlb; tv; ta; tn1; tsc1; c; o; tn2; tsc2; sv; st; trb; tlbr].

(** The token [eat] moves to at index [p]. *)
Definition token_at (toks : list Token) (p : nat) : Token :=
  match nth_error toks p with Some t => t | None => eof_default end.

(** When the loop of [_generate_for_loop] stops, for a step of +1 or -1:
    the condition fails at the start, or the step moves the value towards
    the bound the condition tests. *)
Definition loop_terminates (condition : string) (end_ step start : Z) : bool :=
  ((step =? 1)%Z &&
     (String.eqb condition "<" || String.eqb condition "<=" ||
      (String.eqb condition "!=" && (start <? end_)%Z)))
  || ((step =? -1)%Z &&
        (String.eqb condition ">" || String.eqb condition ">=" ||
         (String.eqb condition "!=" && (end_ <? start)%Z)))
  || negb (condition_holds condition end_ start).

(* ================================================================== *)
(** ** The template renderer's conditional blocks (templates.py) *)


(** [s[n:]] and [s[:n]]. *)
Fixpoint str_drop (n : nat) (s : string) : string :=
  match n, s with
  | O, _ => s
  | S _, EmptyString => EmptyString
  | S n', String _ s' => str_drop n' s'
  end.

Fixpoint str_take (n : nat) (s : string) : string :=
  match n, s with
  | O, _ => EmptyString
  | S _, EmptyString => EmptyString
  | S n', String c s' => String c (str_take n' s')
  end.

(** [s.replace(old, new)]: every non-overlapping occurrence from the left;
    an empty [old] inserts [new] around every character. *)
Fixpoint replace_scan (old new s : string) (fuel : nat) : string :=
  match fuel with
  | O => s
  | S f =>
      if String.prefix old s then
        new ++ replace_scan old new (str_drop (String.length old) s) f
      else
        match s with
        | EmptyString => EmptyString
        | String c s' => String c (replace_scan old new s' f)
        end
  end.

Fixpoint replace_empty (new s : string) : string :=
  match s with
  | EmptyString => new
  | String c s' => new ++ String c (replace_empty new s')
  end.

Definition py_replace (s old new : string) : string :=
  if String.eqb old "" then replace_empty new s
  else replace_scan old new s (S (String.length s)).

(** The loop [for key, value in context.items(): condition =
    condition.replace(key, str(value))], on a context of strings. *)
Definition replace_context (context : dict string) (condition : string) : string :=
  fold_left (fun c kv => py_replace c (fst kv) (snd kv)) context condition.

(** The characters before the first [}]; [None] when there is none. *)
Fixpoint split_at_brace (s : string) : option (string * string) :=
  match s with
  | EmptyString => None
  | String c s' =>
      if Ascii.eqb c "}"%char then Some (EmptyString, s)
      else option_map (fun p => (String c (fst p), snd p)) (split_at_brace s')
  end.

(** The text before the first [{endif}], and the text after it. *)
Fixpoint split_at_endif (s : string) : option (string * string) :=
  if String.prefix "{endif}" s then Some (EmptyString, str_drop 7 s)
  else match s with
       | EmptyString => None
       | String c s' =>
           option_map (fun p => (String c (fst p), snd p)) (split_at_endif s')
       end.

Fixpoint span_space (s : string) : string * string :=
  match s with
  | String c s' =>
      if is_space c then let p := span_space s' in (String c (fst p), snd p)
      else (EmptyString, s)
  | EmptyString => (EmptyString, EmptyString)
  end.

(** A match of [\{if\s+([^}]+)\}(.*?)\{endif\}] (DOTALL) at the start of [s]:
    group 1, group 2, the text matched and the text after it. [\s+] is
    greedy; when a [}] follows it at once, it gives its last character back
    to [[^}]+]. *)
Definition match_if (s : string) : option (string * string * string * string) :=
  if String.prefix "{if" s then
    let (ws, s2) := span_space (str_drop 3 s) in
    let group1_after :=
      match ws, s2 with
      | EmptyString, _ => None
      | _, String c _ =>
          if Ascii.eqb c "}"%char then
            if 2 <=? String.length ws
            then Some (substring (String.length ws - 1) 1 ws, s2)
            else None
          else split_at_brace s2
      | _, EmptyString => None
      end in
    match group1_after with
    | Some (g1, String c after) =>
        if Ascii.eqb c "}"%char then
          match split_at_endif after with
          | Some (g2, rest) =>
              let whole := str_take (String.length s - String.length rest) s in
              Some (g1, g2, whole, rest)
          | None => None
          end
        else None
    | _ => None
    end
  else None.

(** [_process_conditionals], given the value of [eval(condition,
    {"__builtins__": {}}, {})] as [ev]: [Some b] for a result of truth
    value [b], [None] when it raises. It returns the rendered text and the
    strings handed to [eval], in order. *)
Section Conditionals.

Variable ev : string -> option bool.
Variable context : dict string.

Fixpoint conditionals_scan (s : string) (fuel : nat) : string * list string :=
  match fuel with
  | O => (s, [])
  | S f =>
      match match_if s with
      | Some (g1, g2, whole, rest) =>
          let condition := replace_context context (py_strip g1) in
          let out := match ev condition with
                     | Some true => g2
                     | Some false => EmptyString
                     | None => whole
                     end in
          let r := conditionals_scan rest f in
          (out ++ fst r, condition :: snd r)
      | None =>
          match s with
          | EmptyString => (EmptyString, [])
          | String c s' =>
              let r := conditionals_scan s' f in (String c (fst r), snd r)
          end
      end
  end.

Definition process_conditionals (template : string) : string * list string :=
  conditionals_scan template (S (String.length template)).

End Conditionals.

(** The tokens an expression of the closed grammar the specification asks
    for (literals, comparisons, boolean connectives, arithmetic on numbers)
    can be written with: numbers, quoted strings, the operator characters,
    parentheses, white space and the words [and], [or], [not], [True],
    [False], [None]. A text with any other token (an attribute access, a
    call of a named function, a subscript, ...) is outside the grammar. *)
Inductive VState := VNormal | VDot | VNumber | VWord (w : string)
                  | VQuote (q : ascii) | VQuoteEsc (q : ascii).

Definition allowed_word (w : string) : bool :=
  existsb (String.eqb w) ["and"; "or"; "not"; "True"; "False"; "None"].

Definition is_word_char (c : ascii) : bool :=
  is_ascii_letter c || is_digit c || Ascii.eqb c "_"%char.

Definition is_op_char (c : ascii) : bool := has_char c "<>=!+-*/%()".

Definition step_normal (c : ascii) : option VState :=
  if is_space c || is_op_char c then Some VNormal
  else if is_digit c then Some VNumber
  else if Ascii.eqb c "."%char then Some VDot
  else if Ascii.eqb c "'"%char || Ascii.eqb c (ascii_of_nat 34) then Some (VQuote c)
  else if is_ascii_letter c || Ascii.eqb c "_"%char then Some (VWord (String c EmptyString))
  else None.

Fixpoint vocab_scan (st : VState) (s : string) : bool :=
  match s with
  | EmptyString =>
      match st with
      | VNormal | VNumber => true
      | VWord w => allowed_word w
      | _ => false
      end
  | String c s' =>
      let next := match step_normal c with
                  | Some st' => vocab_scan st' s'
                  | None => false
                  end in
      match st with
      | VNormal => next
      | VDot => if is_digit c then vocab_scan VNumber s' else false
      | VNumber =>
          if is_word_char c || Ascii.eqb c "."%char then vocab_scan VNumber s' else next
      | VWord w =>
          if is_word_char c then vocab_scan (VWord (w ++ String c EmptyString)) s'
          else allowed_word w && next
      | VQuote q =>
          if Ascii.eqb c q then vocab_scan VNormal s'
          else if Ascii.eqb c backslash then vocab_scan (VQuoteEsc q) s'
          else vocab_scan (VQuote q) s'
      | VQuoteEsc q => vocab_scan (VQuote q) s'
      end
  end.

Definition in_expr_vocabulary (s : string) : bool := vocab_scan VNormal s.

(* ================================================================== *)
(** ** The lexer ([Lexer], src/core/lexer.py) *)

(** The lexer's [pos] is kept as the unread rest of the text,
    [self.text[self.pos:]]; [pos] itself is the length of the text minus
    that of the rest. *)
Definition newline_char : ascii := ascii_of_nat 10.
Definition dquote_char : ascii := ascii_of_nat 34.

(** [self.keywords] (lexer.py 62-73). *)
Definition keywords : dict TokenType :=
  [("folder", FOLDER); ("file", FILE); ("for", FOR); ("if", IF); ("else", ELSE);
   ("stdout", STDOUT); ("stdin", STDIN); ("true", IDENTIFIER);
   ("false", IDENTIFIER); ("null", IDENTIFIER)].

(** [self.keywords.get(word, TokenType.IDENTIFIER)]. *)
Definition keyword_type (word : string) : TokenType :=
  match dict_get word keywords with Some t => t | None => IDENTIFIER end.

(** [self.operators] (lexer.py 75-101). *)
Definition operators : dict TokenType :=
  [("=", ASSIGN); ("==", EQ); ("!=", NE); ("<", LT); (">", GT); ("<=", LE);
   (">=", GE); ("+", PLUS); ("-", MINUS); ("*", MUL); ("/", DIV); ("%", MOD);
   ("++", INCR); ("--", DECR); ("<<", LSHIFT); (">>", RSHIFT); ("(", LPAREN);
   (")", RPAREN); ("{", LBRACE); ("}", RBRACE); ("[", LBRACKET);
   ("]", RBRACKET); (",", COMMA); (":", COLON); (";", SEMICOLON)].

Record LState := mkLState {
  lrest : string;          (* self.text[self.pos:] *)
  lline : Z;               (* self.line *)
  lline_start : nat;       (* self.line_start *)
  ltokens : list Token     (* self.tokens *)
}.

Inductive LexResult :=
| LexOk (tokens : list Token)
| LexError (message : string)   (* SyntaxError(message) *)
| LexOutOfFuel.

Section Lexer.

(** [self.text]. *)
Variable text : string.

(** [self.pos] for a given unread rest. *)
Definition lpos (rest : string) : nat := String.length text - String.length rest.

(** The column [start - self.line_start + 1] of a token starting at [start]. *)
Definition lcol (start line_start : nat) : Z :=
  (Z.of_nat start - Z.of_nat line_start + 1)%Z.

Definition emit (ty : TokenType) (value : string) (col : Z) (rest : string)
  (st : LState) : LState :=
  mkLState rest (lline st) (lline_start st)
           (app (ltokens st) [mkToken ty value (lline st) col]).

(** [_skip_whitespace]. *)
Fixpoint skip_ws (rest : string) (line : Z) (line_start : nat) : string * Z * nat :=
  match rest with
  | String c r =>
      if is_space c then
        if Ascii.eqb c newline_char then skip_ws r (line + 1)%Z (lpos r)
        else skip_ws r line line_start
      else (rest, line, line_start)
  | EmptyString => (EmptyString, line, line_start)
  end.

(** [_read_comment]: the rest from the next newline on. *)
Fixpoint skip_comment (rest : string) : string :=
  match rest with
  | String c r => if Ascii.eqb c newline_char then rest else skip_comment r
  | EmptyString => EmptyString
  end.

(** [(c + v, r)] for a result [(v, r)]. *)
Definition cons_fst (c : ascii) (p : option (string * string)) : option (string * string) :=
  match p with
  | Some (v, r) => Some (String c v, r)
  | None => None
  end.

(** The loop of [_read_string], after the opening quote: the text up to the
    closing quote (escape pairs kept as written) and the rest after it;
    [None] when the text ends first. *)
Fixpoint string_body (rest : string) : option (string * string) :=
  match rest with
  | EmptyString => None
  | String c r =>
      if Ascii.eqb c dquote_char then Some (EmptyString, r)
      else if Ascii.eqb c backslash then
        match r with
        | String d r' => cons_fst c (cons_fst d (string_body r'))
        | EmptyString => string_body r
        end
      else cons_fst c (string_body r)
  end.

(** The loop of [_read_number]. *)
Fixpoint span_number (rest : string) : string * string :=
  match rest with
  | String c r =>
      if py_isdigit c || Ascii.eqb c "."%char then
        let p := span_number r in (String c (fst p), snd p)
      else (EmptyString, rest)
  | EmptyString => (EmptyString, EmptyString)
  end.

(** The loop of [_read_identifier]. *)
Fixpoint span_ident (rest : string) : string * string :=
  match rest with
  | String c r =>
      if py_isalnum c || Ascii.eqb c "_"%char then
        let p := span_ident r in (String c (fst p), snd p)
      else (EmptyString, rest)
  | EmptyString => (EmptyString, EmptyString)
  end.

(** The loop of [_read_template_var] at brace depth [depth] (at least 1):
    the text read before the brace that brings the depth to 0, and the rest
    after that brace; [None] when the text ends first. *)
Fixpoint template_body (rest : string) (depth : nat) : option (string * string) :=
  match rest with
  | EmptyString => None
  | String c r =>
      if Ascii.eqb c "{"%char then cons_fst c (template_body r (S depth))
      else if Ascii.eqb c "}"%char then
        if depth =? 1 then Some (EmptyString, r)
        else cons_fst c (template_body r (pred depth))
      else cons_fst c (template_body r depth)
  end.

(** [_read_operator]: the two-character operator if there is one, else the
    one-character one. *)
Definition read_operator (st : LState) : option LState :=
  let col := lcol (lpos (lrest st)) (lline_start st) in
  let two :=
    match lrest st with
    | String a (String b r) =>
        let op := String a (String b EmptyString) in
        match dict_get op operators with
        | Some ty => Some (emit ty op col r st)
        | None => None
        end
    | _ => None
    end in
  match two with
  | Some st' => Some st'
  | None =>
      match lrest st with
      | String a r =>
          let op := String a EmptyString in
          match dict_get op operators with
          | Some ty => Some (emit ty op col r st)
          | None => None
          end
      | EmptyString => None
      end
  end.

(** The end of [tokenize]: the EOF token. *)
Definition finish (st : LState) : LexResult :=
  LexOk (app (ltokens st) [mkToken EOF "" (lline st) 0]).

(** The loop of [tokenize], for at most [fuel] rounds. *)
Fixpoint lex_loop (fuel : nat) (st : LState) : LexResult :=
  match fuel with
  | O => LexOutOfFuel
  | S f =>
      match lrest st with
      | EmptyString => finish st
      | _ =>
          let '(rest1, line1, ls1) := skip_ws (lrest st) (lline st) (lline_start st) in
          let st1 := mkLState rest1 line1 ls1 (ltokens st) in
          match rest1 with
          | EmptyString => finish st1
          | String c r =>
              let col := lcol (lpos rest1) ls1 in
              if Ascii.eqb c "#"%char then
                lex_loop f (mkLState (skip_comment rest1) line1 ls1 (ltokens st))
              else if Ascii.eqb c dquote_char then
                match string_body r with
                | Some (value, r') =>
                    lex_loop f (emit STRING value (lcol (lpos r) ls1) r' st1)
                | None => LexError ("Unclosed string at line " ++ py_str_int line1)
                end
              else if py_isdigit c then
                let (value, r') := span_number rest1 in
                lex_loop f (emit NUMBER value col r' st1)
              else if Ascii.eqb c "$"%char &&
                      match r with String d _ => Ascii.eqb d "{"%char | _ => false end then
                match template_body (str_drop 1 r) 1 with
                | Some (content, r') =>
                    lex_loop f (emit TEMPLATE_VAR (py_strip content) col r' st1)
                | None =>
                    LexError ("Unclosed template variable at line " ++ py_str_int line1)
                end
              else if py_isalpha c || Ascii.eqb c "_"%char then
                let (value, r') := span_ident rest1 in
                lex_loop f (emit (keyword_type (lower value)) value col r' st1)
              else
                match read_operator st1 with
                | Some st2 => lex_loop f st2
                | None => lex_loop f (mkLState r line1 ls1 (ltokens st))
                end
          end
      end
  end.

(** [Lexer(text).tokenize()]. *)
Definition tokenize : LexResult :=
  lex_loop (S (String.length text)) (mkLState text 1 0 []).

End Lexer.

(* ================================================================== *)
Definition example_state (vars : dict string) : GenState := {|
  variables := vars; files := []; dirs := ["."]; attr_calls := [];
  stdout := []; stdin := []
|}.

(** A configuration loaded with [defaults: {replaceifexists: false}], and a
    state in which [./a.txt] already holds [old]. *)
Definition cfg_no_replace : Config :=
  fsconfig_load_from_dict fsconfig_init [] [] [("replaceifexists", ABool false)].

Definition state_with_a : GenState := {|
  variables := [("date", "2026-10-15"); ("time", "12:00:00")];
  files := [("./a.txt", {| fd_content := "old"; fd_encoding := "utf-8" |})];
  dirs := ["."]; attr_calls := []; stdout := []; stdin := []
|}.

Definition with_defaults (cfg : Config) (d : dict AttrValue) : Config := {|
  file_contents := file_contents cfg; templates := templates cfg; defaults := d
|}.

(** A token stream whose loop header starts after [pre]. *)
Definition loop_header_stream (pre : list Token)
  (tf tlb tv ta tn1 tsc1 c o tn2 tsc2 sv st trb tlbr : Token) (rest : list Token)
  : list Token :=
  app pre (app (for_header tf tlb tv ta tn1 tsc1 c o tn2 tsc2 sv st trb tlbr) rest).

(** The parser sits on a token of [ts] followed by EOF, at most at that EOF
    token; [stream_safe] parsers keep it there. *)
Definition stream_within (ts : list Token) (line : Z) (s : PState) : Prop :=
  pos s <= length ts /\ cur s = nth_error (terminated_stream ts line) (pos s).

Definition stream_safe (ts : list Token) (line : Z) {A} (m : PM A) : Prop :=
  forall s, stream_within ts line s -> stream_within ts line (res_state (m s)).

Definition stream_safe_at (ts : list Token) (line : Z) {A} (t : Token) (m : PM A) : Prop :=
  forall s, stream_within ts line s -> cur s = Some t ->
  stream_within ts line (res_state (m s)).

(* ================================================================== *)
(** ** Auxiliary definitions for the lexer, parser and generator proofs *)

(** A parser step that raises [AttributeError] only when there is no
    current token. *)
Definition attr_sound {A} (m : PM A) : Prop :=
  forall s s', m s = PFail AttributeError s' -> cur s' = None.

Definition ex_text : string :=
  "stdout << " ++ dquote ++ "hi" ++ dquote ++ " stdin >> name".

(** Every character of [s] satisfies [p]. *)
Fixpoint all_chars (p : ascii -> bool) (s : string) : bool :=
  match s with
  | EmptyString => true
  | String c s' => p c && all_chars p s'
  end.

(** The number of occurrences of [c] in [s]. *)
Fixpoint count_char (c : ascii) (s : string) : nat :=
  match s with
  | EmptyString => 0
  | String d s' => (if Ascii.eqb c d then 1 else 0) + count_char c s'
  end.

(** [Permission.value]. *)
(** Tokens of one [name = "value"] attribute, with or without a comma. *)
Definition attr_item_tokens (it : string * string * bool) : list Token :=
  let '(n, v, comma) := it in
  ([mkToken IDENTIFIER n 1 1; mkToken ASSIGN "=" 1 1; mkToken STRING v 1 1]
  ++ (if comma then [mkToken COMMA "," 1 1] else []))%list.

(** The dictionary [parse_attributes] builds from such attributes, each
    value kept as a string. *)
Definition attr_items_dict (items : list (string * string * bool)) : attributes :=
  fold_left (fun acc it => let '(n, v, _) := it in dict_set n (AStr v) acc) items [].

(** A STRING value that [parse_attribute_value] keeps as a string. *)
Definition plain_string_value (v : string) : bool :=
  match file_type_of_value (lower v), permission_of_value v with
  | None, None => true
  | _, _ => false
  end.

(** What a run keeps: existing files and directories, and what was printed. *)
Definition grows (st st' : GenState) : Prop :=
  (forall p, is_file st p = true -> is_file st' p = true) /\
  (forall d, In d (dirs st) -> In d (dirs st')) /\
  exists out, stdout st' = (stdout st ++ out)%list.

(** The values [_create_file] and [_apply_file_attributes] use for an
    absent attribute ([attributes.get(key, default)]). *)
Definition file_attr_defaults : dict AttrValue :=
  [("replaceifexists", ABool true); ("encoding", AStr "utf-8");
   ("type", AFileType TEXT); ("executable", ABool false)].

(** [re.match] on the patterns of the examples: [^test_.*] matches the
    names that start with [test_] (as in Python, [.*] may match nothing),
    and the patterns of plain letters, digits and [_] used below match the
    names they start. *)
Definition example_re_match : ReMatch := fun p n =>
  if String.eqb p "^test_.*" then Some (String.prefix "test_" n)
  else Some (String.prefix p n).

(** A codec table that knows utf-8 alone, which writes every text. *)
Definition utf8_only : Encodes := fun e _ =>
  match e with Some name => String.eqb name "utf-8" | None => false end.

(** * Proofs *)

(** ** Template substitution *)

Lemma parse_repl_plain : forall v fuel,
  String.length v < fuel -> has_char backslash v = false ->
  parse_repl fuel v = Some (lit_pieces v).
Proof.
  induction v as [|c v IH]; intros fuel Hlen Hnb; destruct fuel as [|f];
    cbn [String.length] in Hlen; try lia; [reflexivity|].
  cbn [has_char] in Hnb. apply orb_false_iff in Hnb as [Hc Hv].
  cbn [parse_repl]. rewrite Ascii.eqb_sym, Hc. rewrite (IH f); auto; lia.
Qed.

Lemma expand_lit_pieces : forall v m, expand_repl (lit_pieces v) m = v.
Proof. induction v; intros; simpl; f_equal; auto. Qed.

Lemma re_sub_literal_plain : forall pat v s,
  has_char backslash v = false ->
  re_sub_literal pat v s = Some (sub_scan pat v s 0).
Proof.
  intros pat v s Hnb. unfold re_sub_literal.
  rewrite parse_repl_plain by (auto; lia). now rewrite expand_lit_pieces.
Qed.

Lemma fold_apply_plain : forall vars t,
  values_without_backslash vars ->
  fold_left (fun acc kv =>
               match acc with
               | None => None
               | Some result => re_sub_literal (placeholder (fst kv)) (snd kv) result
               end) vars (Some t) = Some (sequential_subst vars t).
Proof.
  induction vars as [|[k v] vars IH]; intros t Hnb; [reflexivity|].
  inversion Hnb; subst. simpl.
  rewrite re_sub_literal_plain by assumption. apply IH; assumption.
Qed.

Lemma apply_template_vars_plain : forall vars t,
  values_without_backslash vars ->
  apply_template_vars t vars = Some (sequential_subst vars t).
Proof.
  intros vars t Hnb. destruct vars as [|kv vars']; [reflexivity|].
  unfold apply_template_vars. apply fold_apply_plain; assumption.
Qed.

Lemma sub_scan_nomatch : forall p r s,
  has_sub p s = false -> sub_scan p r s 0 = s.
Proof.
  induction s as [|c s IH]; intros H; [reflexivity|].
  simpl in H. apply orb_false_iff in H as [Hp Hs].
  simpl. rewrite Hp. f_equal. now apply IH.
Qed.

Lemma prefix_placeholder : forall k s,
  String.prefix (placeholder k) s = true -> String.prefix "${" s = true.
Proof.
  intros k s H. unfold placeholder in H.
  destruct s as [|a s]; cbn [String.prefix String.append] in H |- *; [discriminate|].
  destruct (ascii_dec "$" a); [|discriminate].
  destruct s as [|b s]; cbn [String.prefix String.append] in H |- *; [discriminate|].
  destruct (ascii_dec "{" b); [destruct s; reflexivity|discriminate].
Qed.

Lemma has_sub_placeholder : forall k s,
  has_sub "${" s = false -> has_sub (placeholder k) s = false.
Proof.
  induction s as [|c s IH]; intros H; [reflexivity|].
  simpl in H. apply orb_false_iff in H as [Hp Hs].
  cbn [has_sub]. apply orb_false_iff. split; [|now apply IH].
  destruct (String.prefix (placeholder k) (String c s)) eqn:E; auto.
  apply prefix_placeholder in E. simpl in Hp, E. congruence.
Qed.

Lemma sequential_subst_nomatch : forall vars t,
  (forall k, has_sub (placeholder k) t = false) ->
  sequential_subst vars t = t.
Proof.
  unfold sequential_subst. induction vars as [|[k v] vars IH]; intros t H;
    [reflexivity|].
  simpl. rewrite sub_scan_nomatch by apply H. apply IH; assumption.
Qed.

Lemma has_char_app : forall c a b,
  has_char c (a ++ b) = has_char c a || has_char c b.
Proof.
  induction a as [|x a IH]; intros; simpl; [reflexivity|].
  rewrite IH, orb_assoc. reflexivity.
Qed.

Lemma has_sub_no_head : forall x s,
  has_char "$" s = false -> has_sub (String "$" x) s = false.
Proof.
  induction s as [|c s IH]; intros H; [reflexivity|].
  simpl in H. apply orb_false_iff in H as [Hc Hs].
  cbn [has_sub String.prefix]. rewrite IH by assumption.
  destruct (ascii_dec "$" c) as [e|]; [subst; discriminate|reflexivity].
Qed.

Lemma prefix_close_brace : forall k y,
  has_char "}" y = false ->
  String.prefix (k ++ "}") (y ++ "}") = true -> k = y.
Proof.
  induction k as [|a k IH]; intros y Hy Hp.
  - destruct y as [|b y]; [reflexivity|].
    cbn [String.prefix String.append has_char] in Hp, Hy.
    destruct (ascii_dec "}" b) as [e|]; [|discriminate].
    subst. rewrite Ascii.eqb_refl in Hy. discriminate.
  - destruct y as [|b y].
    + cbn [String.prefix String.append] in Hp.
      destruct (ascii_dec a "}"); [|discriminate].
      destruct k; discriminate.
    + cbn [String.prefix String.append has_char] in Hp, Hy.
      apply orb_false_iff in Hy as [_ Hy].
      destruct (ascii_dec a b); [|discriminate]. subst. f_equal. auto.
Qed.

Lemma placeholder_distinct : forall k y,
  k <> y -> has_char "$" y = false -> has_char "}" y = false ->
  has_sub (placeholder k) (placeholder y) = false.
Proof.
  intros k y Hne Hd Hb. unfold placeholder.
  cbn [has_sub String.append]. apply orb_false_iff. split.
  - cbn [String.prefix].
    destruct (ascii_dec "$" "$"); [|reflexivity].
    destruct (ascii_dec "{" "{"); [|reflexivity].
    destruct (String.prefix (k ++ "}") (y ++ "}")) eqn:E; [|reflexivity].
    exfalso. apply Hne. eapply prefix_close_brace; eauto.
  - apply has_sub_no_head. cbn [has_char].
    rewrite has_char_app, Hd. reflexivity.
Qed.

Lemma sub_scan_skip_all : forall p r s n,
  String.length s <= n -> sub_scan p r s n = EmptyString.
Proof.
  induction s as [|c s IH]; intros n H; [reflexivity|].
  simpl in H. destruct n as [|n]; [lia|]. simpl. apply IH. lia.
Qed.

Lemma prefix_refl : forall s, String.prefix s s = true.
Proof.
  induction s as [|c s IH]; [reflexivity|]. simpl.
  destruct (ascii_dec c c); [assumption|congruence].
Qed.

Lemma sequential_subst_unbound : forall vars y,
  dict_get y vars = None -> has_char "$" y = false -> has_char "}" y = false ->
  sequential_subst vars (placeholder y) = placeholder y.
Proof.
  unfold sequential_subst. induction vars as [|[k v] vars IH]; intros y Hg Hd Hb;
    [reflexivity|].
  cbn [dict_get] in Hg. cbn [fold_left fst snd].
  destruct (String.eqb y k) eqn:E; [discriminate|].
  apply String.eqb_neq in E.
  rewrite sub_scan_nomatch by (apply placeholder_distinct; auto).
  apply IH; assumption.
Qed.

Lemma append_empty_right : forall s, s ++ "" = s.
Proof. induction s; simpl; congruence. Qed.

Lemma sub_scan_self : forall p v,
  p <> EmptyString -> sub_scan p v p 0 = v.
Proof.
  intros [|c p] v Hp; [congruence|].
  cbn [sub_scan]. rewrite prefix_refl.
  rewrite sub_scan_skip_all by (simpl; lia). apply append_empty_right.
Qed.

(** C6 (as the code behaves, design part): simple substitution applies the
    bindings one at a time in insertion order, so a value substituted for
    [${a}] is itself rewritten by a later binding; the result is not the
    simultaneous substitution the claim describes. *)
Lemma C6_simultaneous_counterexample :
  apply_template_vars "${a}" [("a", "${b}"); ("b", "2")]
  <> Some (subst_simultaneous [("a", "${b}"); ("b", "2")] "${a}").
Proof. vm_compute. congruence. Qed.

(** C6 (amended): for environments whose values contain no backslash (which
    [re.sub] would read as escapes), simple substitution is the sequential
    literal replacement of [${name}] by its value, binding after binding in
    insertion order; a text with no [${] is returned unchanged; an unbound
    placeholder [${y}] ([y] without [$] or [}]) is returned unchanged; and
    [${x}] with only [x] bound to [v] renders to [v]. *)
Theorem C6_sequential_substitution (vars : dict string)
  (Hnb : values_without_backslash vars) :
  (forall t, apply_template_vars t vars = Some (sequential_subst vars t)) /\
  (forall t, has_sub "${" t = false -> apply_template_vars t vars = Some t) /\
  (forall y, dict_get y vars = None -> has_char "$" y = false ->
     has_char "}" y = false ->
     apply_template_vars (placeholder y) vars = Some (placeholder y)) /\
  (forall x v, has_char backslash v = false ->
     apply_template_vars (placeholder x) [(x, v)] = Some v).
Proof.
  split; [|split; [|split]].
  - intros t. apply apply_template_vars_plain; assumption.
  - intros t Ht. rewrite apply_template_vars_plain by assumption.
    f_equal. apply sequential_subst_nomatch.
    intros k. apply has_sub_placeholder; assumption.
  - intros y Hg Hd Hb. rewrite apply_template_vars_plain by assumption.
    f_equal. apply sequential_subst_unbound; assumption.
  - intros x v Hv. rewrite apply_template_vars_plain by (constructor; auto).
    unfold sequential_subst. cbn [fold_left fst snd].
    f_equal. apply sub_scan_self. unfold placeholder. discriminate.
Qed.

Lemma C6_sequential_substitution_witness :
  values_without_backslash [("x", "5")] /\
  apply_template_vars "${x}" [("x", "5")] = Some "5" /\
  apply_template_vars "${y}" [("x", "5")] = Some "${y}".
Proof.
  assert (H : values_without_backslash [("x", "5")])
    by (constructor; [reflexivity | constructor]).
  destruct (C6_sequential_substitution [("x", "5")] H) as [_ [_ [Hu Hs]]].
  split; [exact H|]. split.
  - exact (Hs "x" "5" eq_refl).
  - exact (Hu "y" eq_refl eq_refl eq_refl).
Defined.

(** C10: substitution is sequential, not simultaneous: with [a] bound to
    the text [${b}] and then [b] bound to [2], [${a}] renders to [2]; with
    the two bindings in the other order it renders to [${b}], so the result
    depends on binding order. *)
Theorem C10_sequential_order_dependence :
  apply_template_vars "${a}" [("a", "${b}"); ("b", "2")] = Some "2" /\
  apply_template_vars "${a}" [("b", "2"); ("a", "${b}")] = Some "${b}".
Proof. split; vm_compute; reflexivity. Qed.

(** ** The interpreter *)

Lemma dict_get_set_same : forall {V} k (v : V) d, dict_get k (dict_set k v d) = Some v.
Proof.
  intros V k v d. induction d as [|[k' v'] d IH]; simpl.
  - now rewrite String.eqb_refl.
  - destruct (String.eqb k k') eqn:E; simpl; rewrite ?E; auto.
Qed.

Lemma dict_get_set_other : forall {V} k k' (v : V) d,
  k <> k' -> dict_get k (dict_set k' v d) = dict_get k d.
Proof.
  intros V k k' v d Hne. induction d as [|[j w] d IH]; simpl.
  - apply String.eqb_neq in Hne. now rewrite Hne.
  - destruct (String.eqb k' j) eqn:E; simpl.
    + apply String.eqb_eq in E. subst j. apply String.eqb_neq in Hne. now rewrite Hne.
    + destruct (String.eqb k j); auto.
Qed.

Lemma dict_get_remove_same : forall {V} k (d : dict V), dict_get k (dict_remove k d) = None.
Proof.
  intros V k d. induction d as [|[k' v'] d IH]; simpl; auto.
  destruct (String.eqb k k') eqn:E; simpl; rewrite ?E; auto.
Qed.

Lemma restore_var_get : forall name old st st',
  restore_var name old st = Some st' -> dict_get name (variables st') = old.
Proof.
  intros name [v|] st st' H; simpl in H.
  - injection H as <-. apply dict_get_set_same.
  - unfold dict_del in H. destruct (dict_get name (variables st)); [|discriminate].
    injection H as <-. apply dict_get_remove_same.
Qed.

Lemma exec_iters_restores : forall re_match encodes cfg cur name children values st st',
  exec_iters re_match encodes cfg cur name children values st st' ->
  dict_get name (variables st') = dict_get name (variables st).
Proof.
  intros re_match encodes cfg cur name children values st st' H.
  induction H as [|cur name children value values st st1 st2 st3 _ Hr _ IH];
    [reflexivity|].
  rewrite IH. apply restore_var_get in Hr. exact Hr.
Qed.

Lemma loop_values_fuel_sound : forall fuel cond step i vs,
  loop_values_fuel fuel cond step i = Some vs -> loop_values cond step i vs.
Proof.
  induction fuel as [|f IH]; intros cond step i vs H; simpl in H; [discriminate|].
  destruct (cond i) eqn:C.
  - destruct (loop_values_fuel f cond step (i + step)%Z) eqn:E; simpl in H; [|discriminate].
    injection H as <-. apply LV_next; auto.
  - injection H as <-. apply LV_stop; assumption.
Qed.

Lemma loop_values_fuel_complete : forall cond step i vs,
  loop_values cond step i vs -> exists fuel, loop_values_fuel fuel cond step i = Some vs.
Proof.
  intros cond step i vs H. induction H as [i C|i vs C _ [f IH]].
  - exists 1. simpl. now rewrite C.
  - exists (S f). simpl. rewrite C, IH. reflexivity.
Qed.

Lemma count_down_below_never_stops : forall i vs,
  loop_values (condition_holds "<" 5) (-1) i vs -> (i < 5)%Z -> False.
Proof.
  intros i vs H. induction H as [i C|i vs C _ IH]; intros Hi.
  - unfold condition_holds in C. simpl in C. apply Z.ltb_ge in C. lia.
  - apply IH. lia.
Qed.

Lemma count_down_below_fuel : forall fuel i,
  (i < 5)%Z -> loop_values_fuel fuel (condition_holds "<" 5) (-1) i = None.
Proof.
  induction fuel as [|f IH]; intros i Hi; [reflexivity|].
  cbn [loop_values_fuel]. unfold condition_holds at 1. simpl String.eqb.
  cbv iota beta. replace ((i <? 5)%Z) with true by (symmetry; apply Z.ltb_lt; lia).
  rewrite IH by lia. reflexivity.
Qed.

Lemma first_pattern_match_no_error : forall re_match fc file_name,
  (forall p, In p (map fst fc) -> re_match p file_name <> None) ->
  first_pattern_match re_match fc file_name =
  Some (option_map snd (find (fun kv => pattern_matches re_match (fst kv) file_name) fc)).
Proof.
  induction fc as [|[p c] fc IH]; intros file_name Hv; [reflexivity|].
  simpl. unfold pattern_matches at 1.
  destruct (re_match p file_name) as [[|]|] eqn:E.
  - reflexivity.
  - apply IH. intros q Hq. apply Hv. right. exact Hq.
  - exfalso. apply (Hv p); [left; reflexivity | exact E].
Qed.

Lemma dict_get_set_absent : forall {V} k k' (v : V) d,
  dict_get k' (dict_set k v d) = if String.eqb k' k then Some v else dict_get k' d.
Proof.
  intros V k k' v d. destruct (String.eqb k' k) eqn:E.
  - apply String.eqb_eq in E. subst k'. apply dict_get_set_same.
  - apply String.eqb_neq in E. apply dict_get_set_other. exact E.
Qed.

Lemma generate_file_default : forall re_match encodes cfg cur name attrs k dflt now now_iso st,
  In (k, dflt) file_attr_defaults -> dict_get k attrs = None ->
  generate_file re_match encodes cfg cur name (dict_set k dflt attrs) now now_iso st =
  generate_file re_match encodes cfg cur name attrs now now_iso st.
Proof.
  intros re_match encodes cfg cur name attrs k dflt now now_iso st Hk Hn.
  unfold generate_file, get_file_content, create_file, apply_file_attributes, attr_get.
  simpl in Hk.
  destruct Hk as [E|[E|[E|[E|[]]]]]; injection E as <- <-;
    rewrite !dict_get_set_absent; cbn -[dict_get]; rewrite Hn; reflexivity.
Qed.

Lemma create_folder_default : forall path attrs st,
  dict_get "permissions" attrs = None ->
  create_folder path (dict_set "permissions" (AStr "755") attrs) st = create_folder path attrs st.
Proof.
  intros path attrs st Hn. unfold create_folder, attr_get.
  rewrite dict_get_set_same, Hn. reflexivity.
Qed.

Lemma generate_file_cfg : forall re_match encodes cfg cfg' cur name attrs now now_iso st,
  file_contents cfg = file_contents cfg' -> templates cfg = templates cfg' ->
  generate_file re_match encodes cfg cur name attrs now now_iso st =
  generate_file re_match encodes cfg' cur name attrs now now_iso st.
Proof.
  intros re_match encodes cfg cfg' cur name attrs now now_iso st Hf Ht.
  unfold generate_file, get_file_content. rewrite Hf, Ht. reflexivity.
Qed.

Lemma exec_node_cfg : forall re_match encodes cfg cfg',
  file_contents cfg = file_contents cfg' -> templates cfg = templates cfg' ->
  forall cur n st st', exec_node re_match encodes cfg cur n st st' ->
  exec_node re_match encodes cfg' cur n st st'.
Proof.
  intros re_match encodes cfg cfg' Hf Ht.
  apply (exec_node_mut re_match encodes cfg
           (fun cur n st st' _ => exec_node re_match encodes cfg' cur n st st')
           (fun cur ns st st' _ => exec_nodes re_match encodes cfg' cur ns st st')
           (fun cur name ch vs st st' _ => exec_iters re_match encodes cfg' cur name ch vs st st'));
    intros; try (econstructor; eauto; fail).
  - apply E_File with now now_iso. rewrite <- (generate_file_cfg re_match encodes cfg); assumption.
Qed.

(** C2: when [re.match] raises on no key of the file-contents map, the
    content of a file is the first of: its [content] attribute, the
    template its [template] attribute names, the exact-name entry, the
    entry of the first key (in declaration order) whose pattern matches the
    name from its start, and the default body of its type ([text] when it
    has none). In particular [content] beats [template], and as
    [re.match("^test_.*", "test_1.txt")] matches, the map
    [{"^test_.*": "X"}] gives [test_1.txt] the content [X]. *)
Theorem C2_content_precedence :
  (forall re_match cfg attrs file_name now now_iso,
     (forall p, In p (map fst (file_contents cfg)) -> re_match p file_name <> None) ->
     get_file_content re_match cfg attrs file_name now now_iso =
     Some (resolve_content_spec re_match cfg attrs file_name now now_iso)) /\
  (forall re_match cfg c t file_name now now_iso,
     get_file_content re_match cfg [("content", AStr c); ("template", AStr t)]
       file_name now now_iso = Some c) /\
  (forall re_match now now_iso,
     re_match "^test_.*" "test_1.txt" = Some true ->
     get_file_content re_match {| file_contents := [("^test_.*", "X")]; templates := [];
                                  defaults := [] |} [] "test_1.txt" now now_iso = Some "X").
Proof.
  split; [|split].
  - intros re_match cfg attrs file_name now now_iso Hv.
    unfold get_file_content, resolve_content_spec.
    destruct (dict_get "content" attrs); [reflexivity|]. cbn [option_map first_some].
    destruct (match dict_get "template" attrs with
              | Some t => template_lookup (templates cfg) t
              | None => None end); [reflexivity|].
    destruct (dict_get file_name (file_contents cfg)); [reflexivity|].
    rewrite first_pattern_match_no_error by assumption.
    destruct (option_map snd _); reflexivity.
  - intros. reflexivity.
  - intros re_match now now_iso H. unfold get_file_content. simpl. rewrite H. reflexivity.
Qed.

Lemma C2_content_precedence_witness :
  (forall p, In p (map fst [("^test_.*", "X"); ("readme", "R")]) ->
     example_re_match p "test_2.txt" <> None) /\
  get_file_content example_re_match
    {| file_contents := [("^test_.*", "X"); ("readme", "R")];
       templates := [("t", "T")]; defaults := [] |} [] "test_2.txt" "now" "iso" =
  Some (resolve_content_spec example_re_match
    {| file_contents := [("^test_.*", "X"); ("readme", "R")];
       templates := [("t", "T")]; defaults := [] |} [] "test_2.txt" "now" "iso").
Proof.
  assert (Hv : forall p, In p (map fst [("^test_.*", "X"); ("readme", "R")]) ->
                 example_re_match p "test_2.txt" <> None).
  { simpl. intros p [<-|[<-|[]]]; discriminate. }
  split; [exact Hv|].
  destruct C2_content_precedence as [H _].
  exact (H example_re_match {| file_contents := [("^test_.*", "X"); ("readme", "R")];
                               templates := [("t", "T")]; defaults := [] |}
           [] "test_2.txt" "now" "iso" Hv).
Defined.

(** C3: after a for-loop has run to completion, the loop variable has the
    binding it had before the loop (its old value, or none), whatever the
    body did and however many iterations ran. *)
Theorem C3_loop_variable_restored : forall re_match encodes cfg cur var_name start end_
  step condition children st st',
  exec_node re_match encodes cfg cur
    (ForLoopNode var_name start end_ step condition children) st st' ->
  dict_get var_name (variables st') = dict_get var_name (variables st).
Proof.
  intros re_match encodes cfg cur var_name start end_ step condition children st st' H.
  inversion H; subst. eapply exec_iters_restores; eassumption.
Qed.

Lemma C3_loop_variable_restored_witness :
  exec_node example_re_match utf8_only fsconfig_init "."
    (ForLoopNode "i" 0 2 1 "<" [OutputNode "${i}"])
    (example_state [("i", "outer")])
    {| variables := [("i", "outer")]; files := []; dirs := ["."]; attr_calls := [];
       stdout := ["0"; "1"]; stdin := [] |} /\
  dict_get "i" [("i", "outer")] = Some "outer".
Proof.
  assert (H : exec_node example_re_match utf8_only fsconfig_init "."
                (ForLoopNode "i" 0 2 1 "<" [OutputNode "${i}"])
                (example_state [("i", "outer")])
                {| variables := [("i", "outer")]; files := []; dirs := ["."];
                   attr_calls := []; stdout := ["0"; "1"]; stdin := [] |}).
  { apply E_ForLoop with [0%Z; 1%Z].
    - apply LV_next; [reflexivity|]. apply LV_next; [reflexivity|].
      apply LV_stop; reflexivity.
    - eapply EI_cons.
      + eapply EN_cons; [apply E_Output; vm_compute; reflexivity | apply EN_nil].
      + vm_compute. reflexivity.
      + eapply EI_cons.
        * eapply EN_cons; [apply E_Output; vm_compute; reflexivity | apply EN_nil].
        * vm_compute. reflexivity.
        * apply EI_nil. }
  split; [exact H|].
  exact (C3_loop_variable_restored _ _ _ _ _ _ _ _ _ _ _ _ H).
Defined.

(** C4 fails: the configuration's defaults say [replaceifexists = false],
    the node does not set it, and yet the existing file is overwritten. *)
Lemma C4_defaults_ignored_counterexample :
  dict_get "replaceifexists" (defaults cfg_no_replace) = Some (ABool false) /\
  exists st',
    exec_node example_re_match utf8_only cfg_no_replace "."
      (FileNode "a.txt" [("content", AStr "new")]) state_with_a st' /\
    dict_get "./a.txt" (files st') <> dict_get "./a.txt" (files state_with_a).
Proof.
  split; [reflexivity|].
  eexists. split.
  - apply E_File with (now := "") (now_iso := ""). vm_compute. reflexivity.
  - vm_compute. congruence.
Qed.

(** C4 (amended): the generator never reads the configuration's defaults:
    replacing them by any other defaults allows exactly the same runs, and
    a node attribute that is absent falls back to the generator's built-in
    value: a file node without [replaceifexists], [encoding], [type] or
    [executable] runs exactly as with [replaceifexists = true],
    [encoding = "utf-8"], [type = text] or [executable = false], and a
    folder node without [permissions] as with [permissions = "755"]. *)
Theorem C4_defaults_not_consulted :
  (forall re_match encodes cfg d cur n st st',
     exec_node re_match encodes cfg cur n st st' <->
     exec_node re_match encodes (with_defaults cfg d) cur n st st') /\
  (forall re_match encodes cfg cur name attrs k dflt st st',
     In (k, dflt) file_attr_defaults -> dict_get k attrs = None ->
     exec_node re_match encodes cfg cur (FileNode name attrs) st st' <->
     exec_node re_match encodes cfg cur (FileNode name (dict_set k dflt attrs)) st st') /\
  (forall re_match encodes cfg cur name children attrs st st',
     dict_get "permissions" attrs = None ->
     exec_node re_match encodes cfg cur (FolderNode name children attrs) st st' <->
     exec_node re_match encodes cfg cur
       (FolderNode name children (dict_set "permissions" (AStr "755") attrs)) st st').
Proof.
  split; [|split].
  - intros re_match encodes cfg d cur n st st'. split; apply exec_node_cfg; reflexivity.
  - intros re_match encodes cfg cur name attrs k dflt st st' Hk Hn.
    pose proof (fun now now_iso st => generate_file_default re_match encodes cfg cur name
                  attrs k dflt now now_iso st Hk Hn) as G.
    split; intro H; inversion H; subst; apply E_File with now now_iso;
      [rewrite G | rewrite <- G]; assumption.
  - intros re_match encodes cfg cur name children attrs st st' Hn.
    split; intro H; inversion H; subst; eapply E_Folder; try eassumption.
    + rewrite (create_folder_default _ attrs) by assumption. eassumption.
    + rewrite <- (create_folder_default _ attrs) by assumption. eassumption.
Qed.

Lemma C4_defaults_not_consulted_witness :
  In ("replaceifexists", ABool true) file_attr_defaults /\
  dict_get "replaceifexists" [("content", AStr "new")] = None /\
  (exec_node example_re_match utf8_only cfg_no_replace "."
     (FileNode "a.txt" [("content", AStr "new")]) state_with_a
     (print_line "Created file: ./a.txt (text, encoding: utf-8)"
        (set_fs [("./a.txt", {| fd_content := "new"; fd_encoding := "utf-8" |})] ["."]
           state_with_a)) <->
   exec_node example_re_match utf8_only cfg_no_replace "."
     (FileNode "a.txt" (dict_set "replaceifexists" (ABool true) [("content", AStr "new")]))
     state_with_a
     (print_line "Created file: ./a.txt (text, encoding: utf-8)"
        (set_fs [("./a.txt", {| fd_content := "new"; fd_encoding := "utf-8" |})] ["."]
           state_with_a))) /\
  dict_get "permissions" ([] : attributes) = None /\
  (exec_node example_re_match utf8_only cfg_no_replace "." (FolderNode "d" [] []) state_with_a
     (print_line "Created folder: ./d"
        (add_attr_call (Chmod "./d" 493) (set_fs (files state_with_a) [".";"./d"] state_with_a))) <->
   exec_node example_re_match utf8_only cfg_no_replace "."
     (FolderNode "d" [] (dict_set "permissions" (AStr "755") [])) state_with_a
     (print_line "Created folder: ./d"
        (add_attr_call (Chmod "./d" 493) (set_fs (files state_with_a) [".";"./d"] state_with_a)))).
Proof.
  destruct C4_defaults_not_consulted as [_ [H1 H2]].
  split; [simpl; auto|]. split; [reflexivity|]. split.
  - exact (H1 example_re_match utf8_only cfg_no_replace "." "a.txt" [("content", AStr "new")]
             "replaceifexists" (ABool true) _ _ (or_introl eq_refl) eq_refl).
  - split; [reflexivity|].
    exact (H2 example_re_match utf8_only cfg_no_replace "." "d" [] [] _ _ eq_refl).
Defined.

(** C7: once the name and content of a file have been resolved, a target
    path that exists together with [replaceifexists = false] makes the
    generation of the file a reported skip: it completes without error,
    prints the skip notice, and leaves files, directories and attributes
    as they were. *)
Theorem C7_skip_existing : forall re_match encodes cfg cur name attrs now now_iso st
  file_name content content',
  apply_template_vars name (variables st) = Some file_name ->
  get_file_content re_match cfg attrs file_name now now_iso = Some content ->
  apply_template_vars content (variables st) = Some content' ->
  path_exists st (os_path_join cur file_name) = true ->
  dict_get "replaceifexists" attrs = Some (ABool false) ->
  let st' := print_line (skip_message (os_path_join cur file_name)) st in
  exec_node re_match encodes cfg cur (FileNode name attrs) st st' /\
  files st' = files st /\ dirs st' = dirs st /\ attr_calls st' = attr_calls st /\
  stdout st' = app (stdout st) [skip_message (os_path_join cur file_name) ++ nl].
Proof.
  intros re_match encodes cfg cur name attrs now now_iso st file_name content content'
    Hn Hc Hc' He Hr st'.
  split; [|repeat split].
  apply E_File with now now_iso.
  unfold generate_file. rewrite Hn, Hc, Hc'.
  unfold create_file, attr_get. rewrite Hr, He. reflexivity.
Qed.

Lemma C7_skip_existing_witness :
  let attrs := [("replaceifexists", ABool false); ("content", AStr "new")] in
  exec_node example_re_match utf8_only cfg_no_replace "." (FileNode "a.txt" attrs)
    state_with_a (print_line (skip_message "./a.txt") state_with_a).
Proof.
  intros attrs.
  exact (proj1 (C7_skip_existing example_re_match utf8_only cfg_no_replace "." "a.txt" attrs
                  "" "" state_with_a
                  "a.txt" "new" "new" eq_refl eq_refl eq_refl eq_refl eq_refl)).
Defined.

(** ** The parser stays within a terminated stream *)

Section StreamBound.

Variable ts : list Token.
Variable line : Z.
Hypothesis no_eof : forall t, In t ts -> ttype t <> EOF.

Local Abbreviation within := (stream_within ts line).
Local Abbreviation safe := (stream_safe ts line).
Local Abbreviation safe_at := (stream_safe_at ts line).

Lemma safe_ret {A} (a : A) : safe (pret a).
Proof. intros s H; exact H. Qed.

Lemma safe_raise {A} e : safe (praise (A := A) e).
Proof. intros s H; exact H. Qed.

Lemma safe_error {A} msg : safe (error (A := A) msg).
Proof. intros s H; unfold error; destruct (cur s); exact H. Qed.

Lemma safe_bind {A B} (m : PM A) (k : A -> PM B) :
  safe m -> (forall a, safe (k a)) -> safe (pbind m k).
Proof.
  intros Hm Hk s Hs; unfold pbind.
  specialize (Hm s Hs); destruct (m s); simpl in *; [apply Hk|]; assumption.
Qed.

Lemma safe_at_bind {A B} t (m : PM A) (k : A -> PM B) :
  safe_at t m -> (forall a, safe (k a)) -> safe_at t (pbind m k).
Proof.
  intros Hm Hk s Hs Hc; unfold pbind.
  specialize (Hm s Hs Hc); destruct (m s); simpl in *; [apply Hk|]; assumption.
Qed.

Lemma safe_at_of_safe {A} t (m : PM A) : safe m -> safe_at t m.
Proof. intros H s Hs _; auto. Qed.

Lemma safe_cur_bind {B} (k : Token -> PM B) :
  (forall t, safe_at t (k t)) -> safe (pbind cur_tok k).
Proof.
  intros Hk s Hs; unfold pbind, cur_tok.
  destruct (cur s) eqn:E; simpl; [apply Hk|]; assumption.
Qed.

Lemma safe_at_cur_bind {B} t (k : Token -> PM B) :
  (forall t', safe_at t' (k t')) -> safe_at t (pbind cur_tok k).
Proof. intros Hk; apply safe_at_of_safe, safe_cur_bind, Hk. Qed.

Lemma nth_error_terminated_end :
  nth_error (terminated_stream ts line) (length ts) = Some (mkToken EOF "" line 0).
Proof.
  unfold terminated_stream; rewrite nth_error_app2 by lia.
  rewrite Nat.sub_diag; reflexivity.
Qed.

Lemma within_eof s t :
  within s -> cur s = Some t -> ttype t = EOF ->
  pos s = length ts /\ tvalue t = "".
Proof.
  intros [Hp Hc] Ht Hty; rewrite Ht in Hc.
  destruct (Nat.eq_dec (pos s) (length ts)) as [E|E].
  - rewrite E, nth_error_terminated_end in Hc; injection Hc as Ht'.
    subst t; auto.
  - unfold terminated_stream in Hc; rewrite nth_error_app1 in Hc by lia.
    symmetry in Hc; apply nth_error_In in Hc; exfalso; exact (no_eof t Hc Hty).
Qed.

Lemma safe_advance t : ttype t <> EOF -> safe_at t (advance (terminated_stream ts line)).
Proof.
  intros Hty s Hs Hc; unfold advance; cbn [res_state].
  assert (Hlt : pos s < length ts).
  { destruct Hs as [Hp Hn].
    destruct (Nat.eq_dec (pos s) (length ts)) as [E|E]; [|lia].
    rewrite E, nth_error_terminated_end, Hc in Hn; injection Hn as Ht.
    subst t; exfalso; apply Hty; reflexivity. }
  split; cbn [pos cur]; [lia|].
  destruct (nth_error (terminated_stream ts line) (S (pos s))) eqn:E; [reflexivity|].
  apply nth_error_None in E; unfold terminated_stream in E.
  rewrite length_app in E; simpl in E; lia.
Qed.

Lemma safe_eat tt v : tt <> EOF -> safe (eat (terminated_stream ts line) tt v).
Proof.
  intros Htt; unfold eat; apply safe_cur_bind; intros t.
  destruct (TokenType_beq (ttype t) tt) eqn:E.
  - apply internal_TokenType_dec_bl in E.
    destruct v as [v|]; [destruct (String.eqb (tvalue t) v)|];
      try (apply safe_advance; congruence).
    apply safe_at_of_safe, safe_error.
  - apply safe_at_of_safe, safe_error.
Qed.

Ltac safe_tac :=
  repeat match goal with
  | H : TokenType_beq _ _ = true |- _ =>
      apply internal_TokenType_dec_bl in H; rewrite ?H
  | |- safe (pbind cur_tok _) => apply safe_cur_bind; intro
  | |- safe_at _ (pbind cur_tok _) => apply safe_at_cur_bind; intro
  | |- safe_at _ (if ?b then _ else _) => destruct b eqn:?
  | |- safe_at _ (match ?b with _ => _ end) => destruct b eqn:?
  | |- safe (if ?b then _ else _) => destruct b eqn:?
  | |- safe (match ?b with _ => _ end) => destruct b eqn:?
  | |- safe_at _ _ => apply safe_at_of_safe
  | |- safe (pbind _ _) => apply safe_bind; [|intro]
  | |- safe (pret _) => apply safe_ret
  | |- safe (praise _) => apply safe_raise
  | |- safe (error _) => apply safe_error
  | |- safe (eat _ _ _) => apply safe_eat; discriminate
  end.

Lemma safe_parse_output : safe (parse_output (terminated_stream ts line)).
Proof. unfold parse_output; safe_tac. Qed.

Lemma safe_parse_input : safe (parse_input (terminated_stream ts line)).
Proof. unfold parse_input; safe_tac. Qed.

Lemma safe_parse_attribute_value :
  safe (parse_attribute_value (terminated_stream ts line)).
Proof. unfold parse_attribute_value; safe_tac. Qed.

Lemma safe_parse_attribute_list fuel attrs :
  safe (parse_attribute_list (terminated_stream ts line) fuel attrs).
Proof.
  revert attrs; induction fuel as [|f IH]; intros attrs; cbn [parse_attribute_list].
  - apply safe_raise.
  - safe_tac; auto using safe_parse_attribute_value.
Qed.

Lemma safe_parse_attributes fuel :
  safe (parse_attributes (terminated_stream ts line) fuel).
Proof. unfold parse_attributes; safe_tac; apply safe_parse_attribute_list. Qed.

Lemma safe_parse_block stmt fuel :
  safe stmt -> safe (parse_block stmt fuel).
Proof.
  intros Hs; induction fuel as [|f IH]; cbn [parse_block].
  - apply safe_raise.
  - safe_tac; auto.
Qed.

Lemma safe_parse_name msg : safe (parse_name (terminated_stream ts line) msg).
Proof.
  unfold parse_name; apply safe_cur_bind; intros t.
  destruct (TokenType_beq (ttype t) IDENTIFIER) eqn:E1;
    [|destruct (TokenType_beq (ttype t) STRING) eqn:E2]; cbn [orb];
    safe_tac.
Qed.

Lemma safe_parse_opt_attributes fuel :
  safe (parse_opt_attributes (terminated_stream ts line) fuel).
Proof. unfold parse_opt_attributes; safe_tac; apply safe_parse_attributes. Qed.

Lemma safe_parse_folder stmt fuel :
  safe stmt -> safe (parse_folder (terminated_stream ts line) stmt fuel).
Proof.
  intros Hs; unfold parse_folder; safe_tac;
    auto using safe_parse_name, safe_parse_opt_attributes, safe_parse_block.
Qed.

Lemma safe_parse_file fuel : safe (parse_file (terminated_stream ts line) fuel).
Proof.
  unfold parse_file; safe_tac; auto using safe_parse_name, safe_parse_opt_attributes.
Qed.

Lemma safe_parse_bound msg : safe (parse_bound (terminated_stream ts line) msg).
Proof. unfold parse_bound; safe_tac. Qed.

Lemma safe_expect_loop_var v : safe (expect_loop_var (terminated_stream ts line) v).
Proof. unfold expect_loop_var; safe_tac. Qed.

Lemma safe_parse_for_loop stmt fuel :
  safe stmt -> safe (parse_for_loop (terminated_stream ts line) stmt fuel).
Proof.
  intros Hs; unfold parse_for_loop.
  apply safe_bind; [apply safe_eat; discriminate|intros _].
  apply safe_bind; [apply safe_eat; discriminate|intros _].
  apply safe_cur_bind; intros t.
  destruct (negb (TokenType_beq (ttype t) IDENTIFIER));
    [apply safe_at_of_safe, safe_error|].
  apply safe_at_of_safe.
  apply safe_bind; [apply safe_eat; discriminate|intros _].
  apply safe_bind; [apply safe_eat; discriminate|intros _].
  apply safe_bind; [apply safe_parse_bound|intros start].
  apply safe_bind; [apply safe_eat; discriminate|intros _].
  apply safe_bind; [apply safe_expect_loop_var|intros _].
  apply safe_cur_bind; intros op.
  destruct (is_accepted_op (tvalue op)) eqn:Hop; cbn [negb];
    [|apply safe_at_of_safe, safe_error].
  apply safe_at_bind.
  - destruct (TokenType_beq (ttype op) EOF) eqn:He.
    + apply internal_TokenType_dec_bl in He.
      intros s Hw Hc; exfalso.
      destruct (within_eof s op Hw Hc He) as [_ Hv].
      rewrite Hv in Hop; discriminate.
    + apply safe_at_of_safe, safe_eat; intros He'.
      rewrite He', internal_TokenType_dec_lb in He by reflexivity; discriminate.
  - intros _; safe_tac; auto using safe_parse_bound, safe_expect_loop_var,
      safe_parse_block.
Qed.

Lemma safe_parse_statement fuel :
  safe (parse_statement (terminated_stream ts line) fuel).
Proof.
  induction fuel as [|f IH]; cbn [parse_statement].
  - apply safe_raise.
  - apply safe_cur_bind; intros t; apply safe_at_of_safe.
    destruct (ttype t);
      auto using safe_parse_folder, safe_parse_file, safe_parse_for_loop,
        safe_parse_output, safe_parse_input, safe_error.
Qed.

Lemma safe_parse_nodes fuel : safe (parse_nodes (terminated_stream ts line) fuel).
Proof.
  induction fuel as [|f IH]; cbn [parse_nodes].
  - apply safe_raise.
  - safe_tac; auto using safe_parse_statement.
Qed.

Lemma within_init : within (init_pstate (terminated_stream ts line)).
Proof.
  split; cbn [pos cur init_pstate]; [lia|].
  unfold terminated_stream; destruct ts; reflexivity.
Qed.

(** Every run of [parse] on the stream, whatever it returns or raises,
    leaves the parser at most on the EOF token. *)
Lemma parse_within fuel :
  within (res_state (parse (terminated_stream ts line) fuel)).
Proof. apply safe_parse_nodes, within_init. Qed.

End StreamBound.

(** C8: [Parser([]).parse()] does not return an empty list: it raises
    [AttributeError] on [None.type]. On a stream that ends with the lexer's
    EOF token and has no other EOF token, every run of [parse], whatever it
    returns or raises, stops at a position no later than that EOF token,
    with the current token the one at that position. *)
Theorem C8_empty_stream_and_eof_bound :
  (forall fuel, parse [] (S fuel) = PFail AttributeError (mkPState 0 None)) /\
  (forall ts line fuel,
     (forall t, In t ts -> ttype t <> EOF) ->
     pos (res_state (parse (terminated_stream ts line) fuel)) <= length ts /\
     cur (res_state (parse (terminated_stream ts line) fuel)) =
     nth_error (terminated_stream ts line)
               (pos (res_state (parse (terminated_stream ts line) fuel)))).
Proof.
  split.
  - intros fuel; reflexivity.
  - intros ts line fuel Hts; exact (parse_within ts line Hts fuel).
Qed.

Lemma C8_empty_stream_and_eof_bound_witness :
  (forall t, In t [mkToken FOLDER "folder" 1 1; mkToken STRING "src" 1 8] -> ttype t <> EOF) /\
  pos (res_state (parse (terminated_stream [mkToken FOLDER "folder" 1 1; mkToken STRING "src" 1 8] 1) 5))
    <= 2.
Proof.
  assert (H : forall t, In t [mkToken FOLDER "folder" 1 1; mkToken STRING "src" 1 8] ->
                        ttype t <> EOF).
  { intros t [<-|[<-|[]]]; discriminate. }
  split; [exact H|].
  exact (proj1 (proj2 C8_empty_stream_and_eof_bound _ 1%Z 5 H)).
Defined.

(** ** Running the parser over known tokens *)

Lemma pbind_cur_step {B} p t (k : Token -> PM B) :
  pbind cur_tok k (mkPState p (Some t)) = k t (mkPState p (Some t)).
Proof. reflexivity. Qed.

Lemma pbind_ok_step {A B} (m : PM A) (k : A -> PM B) s a s' :
  m s = POk a s' -> pbind m k s = k a s'.
Proof. intros H; unfold pbind; rewrite H; reflexivity. Qed.

Lemma pbind_fail_step {A B} (m : PM A) (k : A -> PM B) s e s' :
  m s = PFail e s' -> pbind m k s = PFail e s'.
Proof. intros H; unfold pbind; rewrite H; reflexivity. Qed.

Lemma eat_run toks p t ty :
  ttype t = ty ->
  eat toks ty None (mkPState p (Some t)) =
  POk tt (mkPState (S p) (Some (token_at toks (S p)))).
Proof.
  intros H; unfold eat, pbind, cur_tok; cbn [cur].
  rewrite H, internal_TokenType_dec_lb by reflexivity; reflexivity.
Qed.

Lemma eat_step {B} toks p t ty t' (k : unit -> PM B) :
  ttype t = ty -> nth_error toks (S p) = Some t' ->
  pbind (eat toks ty None) k (mkPState p (Some t)) = k tt (mkPState (S p) (Some t')).
Proof.
  intros H N; apply pbind_ok_step; rewrite eat_run by exact H.
  unfold token_at; rewrite N; reflexivity.
Qed.

Lemma bound_step {B} toks msg p t t' z (k : Z -> PM B) :
  ttype t = NUMBER -> py_int (tvalue t) = Some z ->
  nth_error toks (S p) = Some t' ->
  pbind (parse_bound toks msg) k (mkPState p (Some t)) = k z (mkPState (S p) (Some t')).
Proof.
  intros H V N; apply pbind_ok_step; unfold parse_bound.
  rewrite pbind_cur_step, H, V; cbn [TokenType_beq].
  unfold pbind; rewrite eat_run by exact H.
  unfold token_at; rewrite N; reflexivity.
Qed.

Lemma loop_var_step {B} toks v p t t' (k : unit -> PM B) :
  ttype t = IDENTIFIER -> tvalue t = v -> nth_error toks (S p) = Some t' ->
  pbind (expect_loop_var toks v) k (mkPState p (Some t)) = k tt (mkPState (S p) (Some t')).
Proof.
  intros H V N; apply pbind_ok_step; unfold expect_loop_var.
  rewrite pbind_cur_step, H, V, String.eqb_refl; cbn [TokenType_beq negb orb].
  unfold pbind; rewrite eat_run by exact H.
  unfold token_at; rewrite N; reflexivity.
Qed.



Lemma nth_error_after (pre l : list Token) k :
  nth_error (app pre l) (k + length pre) = nth_error l k.
Proof. rewrite nth_error_app2 by lia; f_equal; lia. Qed.

Section LoopHeader.

Variables pre rest : list Token.
Variables tf tlb tv ta tn1 tsc1 c o tn2 tsc2 sv st trb tlbr : Token.
Variables start end_ : Z.
Hypothesis Tf : ttype tf = FOR.
Hypothesis Tlb : ttype tlb = LBRACKET.
Hypothesis Tv : ttype tv = IDENTIFIER.
Hypothesis Ta : ttype ta = ASSIGN.
Hypothesis Tn1 : ttype tn1 = NUMBER.
Hypothesis Vn1 : py_int (tvalue tn1) = Some start.
Hypothesis Tsc1 : ttype tsc1 = SEMICOLON.
Hypothesis Tn2 : ttype tn2 = NUMBER.
Hypothesis Vn2 : py_int (tvalue tn2) = Some end_.
Hypothesis Tsc2 : ttype tsc2 = SEMICOLON.
Hypothesis Trb : ttype trb = RBRACKET.
Hypothesis Tlbr : ttype tlbr = LBRACE.

Local Abbreviation header_stream :=
  (loop_header_stream pre tf tlb tv ta tn1 tsc1 c o tn2 tsc2 sv st trb tlbr rest).

Lemma header_at k t :
  nth_error (app (for_header tf tlb tv ta tn1 tsc1 c o tn2 tsc2 sv st trb tlbr) rest) k
    = Some t ->
  nth_error header_stream (k + length pre) = Some t.
Proof. intros H; unfold loop_header_stream; rewrite nth_error_after; exact H. Qed.

Ltac count_S p :=
  match p with
  | S ?q => let k := count_S q in constr:(S k)
  | _ => constr:(0)
  end.

Ltac nth_tac :=
  match goal with
  | |- nth_error _ ?p = Some _ =>
      let k := count_S p in apply (header_at k);
      try (match goal with H : rest = _ |- _ => rewrite H end); reflexivity
  end.

Ltac hdr_step :=
  first
    [ rewrite pbind_cur_step
    | erewrite eat_step by first [eassumption | reflexivity | nth_tac]
    | erewrite bound_step by first [eassumption | nth_tac]
    | erewrite loop_var_step by first [eassumption | congruence | nth_tac] ].

(** The run of [parse_for_loop] up to the operator. *)
Lemma header_to_op f :
  ttype c = IDENTIFIER -> tvalue c = tvalue tv ->
  parse_statement header_stream (S f) (mkPState (length pre) (Some tf)) =
  (if negb (is_accepted_op (tvalue o))
   then error ("Unsupported comparison operator: " ++ tvalue o)
   else
   _ <- eat header_stream (ttype o) None ;;
   end_ <- parse_bound header_stream "Expected numeric end value" ;;
   _ <- eat header_stream SEMICOLON None ;;
   _ <- expect_loop_var header_stream (tvalue tv) ;;
   st <- cur_tok ;;
   step <- (if TokenType_beq (ttype st) INCR then _ <- eat header_stream INCR None ;; pret 1%Z
            else if TokenType_beq (ttype st) DECR then _ <- eat header_stream DECR None ;; pret (-1)%Z
            else error "Expected increment/decrement operator") ;;
   _ <- eat header_stream RBRACKET None ;;
   _ <- eat header_stream LBRACE None ;;
   children <- parse_block (parse_statement header_stream f) f ;;
   _ <- eat header_stream RBRACE None ;;
   pret (ForLoopNode (tvalue tv) start end_ step (tvalue o) children))
  (mkPState (S (S (S (S (S (S (S (length pre)))))))) (Some o)).
Proof.
  intros Tc Vc.
  cbn [parse_statement]; rewrite pbind_cur_step, Tf; unfold parse_for_loop.
  do 2 hdr_step.
  rewrite pbind_cur_step, Tv; cbn [TokenType_beq negb].
  do 5 hdr_step.
  reflexivity.
Qed.





Lemma header_step_op_fail f :
  ttype c = IDENTIFIER -> tvalue c = tvalue tv -> is_accepted_op (tvalue o) = true ->
  ttype sv = IDENTIFIER -> tvalue sv = tvalue tv ->
  ttype st <> INCR -> ttype st <> DECR ->
  parse_statement header_stream (S f) (mkPState (length pre) (Some tf)) =
  PFail (SyntaxError "Expected increment/decrement operator" (tline st) (tcol st))
        (mkPState (11 + length pre) (Some st)).
Proof.
  intros Tc Vc Ho Ts Vs Hi Hd; rewrite header_to_op by assumption; rewrite Ho; cbn [negb].
  do 5 hdr_step.
  destruct (TokenType_beq (ttype st) INCR) eqn:Ei;
    [apply internal_TokenType_dec_bl in Ei; contradiction|].
  destruct (TokenType_beq (ttype st) DECR) eqn:Ed;
    [apply internal_TokenType_dec_bl in Ed; contradiction|].
  reflexivity.
Qed.



End LoopHeader.


(** ** The value list of a loop *)

Lemma loop_values_reach cond step n i :
  cond (i + Z.of_nat n * step)%Z = false -> exists vs, loop_values cond step i vs.
Proof.
  revert i; induction n as [|n IH]; intros i H.
  - exists []; apply LV_stop; rewrite <- H; f_equal; lia.
  - destruct (cond i) eqn:C.
    + destruct (IH (i + step)%Z) as [vs Hvs].
      { rewrite <- H; f_equal; lia. }
      exists (i :: vs); apply LV_next; assumption.
    + exists []; apply LV_stop; exact C.
Qed.

Lemma loop_values_reach_inv cond step i vs :
  loop_values cond step i vs -> exists n, cond (i + Z.of_nat n * step)%Z = false.
Proof.
  induction 1 as [i C|i vs C _ [n IH]].
  - exists 0; rewrite <- C; f_equal; lia.
  - exists (S n); rewrite <- IH; f_equal; lia.
Qed.

Ltac zbool :=
  repeat match goal with
  | |- context [Z.ltb ?a ?b] =>
      let E := fresh in destruct (Z.ltb a b) eqn:E;
      [apply Z.ltb_lt in E | apply Z.ltb_ge in E]
  | |- context [Z.leb ?a ?b] =>
      let E := fresh in destruct (Z.leb a b) eqn:E;
      [apply Z.leb_le in E | apply Z.leb_gt in E]
  | |- context [Z.eqb ?a ?b] =>
      let E := fresh in destruct (Z.eqb a b) eqn:E;
      [apply Z.eqb_eq in E | apply Z.eqb_neq in E]
  end; cbn [negb orb andb].

(** C1 (counterexample): the header [for [i = 0; i < 5; i--] { }] parses,
    but its value loop never stops: no list of values is ever produced and
    the generator has no terminating run on the node. *)
Lemma C1_nonterminating_counterexample :
  (exists s, parse [mkToken FOR "for" 1 1; mkToken LBRACKET "[" 1 5;
                    mkToken IDENTIFIER "i" 1 6; mkToken ASSIGN "=" 1 8;
                    mkToken NUMBER "0" 1 10; mkToken SEMICOLON ";" 1 11;
                    mkToken IDENTIFIER "i" 1 13; mkToken LT "<" 1 15;
                    mkToken NUMBER "5" 1 17; mkToken SEMICOLON ";" 1 18;
                    mkToken IDENTIFIER "i" 1 20; mkToken DECR "--" 1 21;
                    mkToken RBRACKET "]" 1 23; mkToken LBRACE "{" 1 25;
                    mkToken RBRACE "}" 1 27; mkToken EOF "" 1 0] 3 =
             POk [ForLoopNode "i" 0 5 (-1) "<" []] s) /\
  (forall vs, ~ loop_values (condition_holds "<" 5) (-1) 0 vs) /\
  (forall re_match encodes cfg cur st st',
     ~ exec_node re_match encodes cfg cur (ForLoopNode "i" 0 5 (-1) "<" []) st st').
Proof.
  split; [eexists; reflexivity|split].
  - intros vs H; apply (count_down_below_never_stops 0 vs H); lia.
  - intros re_match encodes cfg cur st st' H; inversion H; subst.
    match goal with
    | Hv : loop_values _ _ _ ?vs |- _ =>
        apply (count_down_below_never_stops 0 vs Hv); lia
    end.
Qed.

(** C1: with an accepted operator and a step of +1 or -1, the value loop
    of [_generate_for_loop] stops exactly when [loop_terminates] holds: the
    condition fails at the start, or the step moves the value towards the
    bound the condition tests. Counting up from 0 while testing [> 5] gives
    no values, and the node runs zero iterations without error. *)
Theorem C1_loop_termination_condition condition end_ step start :
  In condition accepted_ops -> (step = 1 \/ step = -1)%Z ->
  ((exists vs, loop_values (condition_holds condition end_) step start vs) <->
   loop_terminates condition end_ step start = true) /\
  loop_values (condition_holds ">" 5) 1 0 [] /\
  (forall re_match encodes cfg cur var_name children st,
     exec_node re_match encodes cfg cur (ForLoopNode var_name 0 5 1 ">" children) st st).
Proof.
  intros Hc Hs; split; [split|split].
  - intros [vs Hv]; apply loop_values_reach_inv in Hv as [n Hn]; revert Hn.
    unfold accepted_ops in Hc.
    destruct Hc as [<-|[<-|[<-|[<-|[<-|[]]]]]]; destruct Hs as [->| ->];
      unfold loop_terminates, condition_holds; cbn; zbool; intros; try discriminate; try reflexivity; lia.
  - unfold accepted_ops in Hc.
    destruct Hc as [<-|[<-|[<-|[<-|[<-|[]]]]]]; destruct Hs as [->| ->];
      unfold loop_terminates; cbn - [condition_holds]; intros H.
    all: revert H; unfold condition_holds; cbn; zbool; intros Hb; try discriminate.
    all: first
      [ solve [apply (loop_values_reach _ _ 0); unfold condition_holds; cbn; zbool;
               first [reflexivity | exfalso; lia]]
      | solve [apply (loop_values_reach _ _ (Z.to_nat (end_ - start))); unfold condition_holds;
               cbn; zbool; first [reflexivity | exfalso; lia]]
      | solve [apply (loop_values_reach _ _ (Z.to_nat (end_ - start + 1))); unfold condition_holds;
               cbn; zbool; first [reflexivity | exfalso; lia]]
      | solve [apply (loop_values_reach _ _ (Z.to_nat (start - end_))); unfold condition_holds;
               cbn; zbool; first [reflexivity | exfalso; lia]]
      | solve [apply (loop_values_reach _ _ (Z.to_nat (start - end_ + 1))); unfold condition_holds;
               cbn; zbool; first [reflexivity | exfalso; lia]] ].
  - apply LV_stop; reflexivity.
  - intros re_match encodes cfg cur var_name children st.
    apply (E_ForLoop re_match encodes cfg cur var_name 0 5 1 ">" children []).
    + apply LV_stop; reflexivity.
    + apply EI_nil.
Qed.

Lemma C1_loop_termination_condition_witness :
  In "<=" accepted_ops /\ (1 = 1 \/ 1 = -1)%Z /\
  exists vs, loop_values (condition_holds "<=" 3) 1 0 vs.
Proof.
  assert (Hin : In "<=" accepted_ops) by (right; left; reflexivity).
  assert (Hs : (1 = 1 \/ 1 = -1)%Z) by (left; reflexivity).
  split; [exact Hin|split; [exact Hs|]].
  apply (proj1 (C1_loop_termination_condition "<=" 3 1 0 Hin Hs)); reflexivity.
Defined.

(** ** Conditional blocks *)

Lemma split_at_brace_app c x :
  has_char "}"%char c = false ->
  split_at_brace (c ++ String "}"%char x) = Some (c, String "}"%char x).
Proof.
  induction c as [|a c IH]; intros H; [reflexivity|].
  cbn [has_char] in H; apply orb_false_iff in H as [Ha Hc].
  cbn [String.append split_at_brace].
  rewrite Ascii.eqb_sym, Ha, IH by exact Hc; reflexivity.
Qed.

Lemma split_at_endif_app b :
  has_char "{"%char b = false ->
  split_at_endif (b ++ "{endif}") = Some (b, EmptyString).
Proof.
  induction b as [|a b IH]; intros H; [reflexivity|].
  cbn [has_char] in H; apply orb_false_iff in H as [Ha Hb].
  cbn [String.append split_at_endif].
  replace (String.prefix "{endif}" (String a (b ++ "{endif}"))) with false.
  - rewrite IH by exact Hb; reflexivity.
  - cbn [String.prefix]; destruct (ascii_dec "{"%char a) as [E|E]; [|reflexivity].
    rewrite E, Ascii.eqb_refl in Ha; discriminate.
Qed.

Lemma str_take_length s : str_take (String.length s) s = s.
Proof. induction s as [|a s IH]; [reflexivity|cbn; rewrite IH; reflexivity]. Qed.

Lemma match_if_block ch c body :
  is_space ch = false -> has_char "}"%char (String ch c) = false ->
  has_char "{"%char body = false ->
  match_if ("{if " ++ String ch c ++ "}" ++ body ++ "{endif}") =
  Some (String ch c, body, "{if " ++ String ch c ++ "}" ++ body ++ "{endif}", EmptyString).
Proof.
  intros Hs Hc Hb.
  set (s := "{if " ++ String ch c ++ "}" ++ body ++ "{endif}").
  assert (P : String.prefix "{if" s = true) by reflexivity.
  assert (D : str_drop 3 s = String " " (String ch (c ++ String "}" (body ++ "{endif}"))))
    by reflexivity.
  assert (Sp : span_space (String " " (String ch (c ++ String "}" (body ++ "{endif}"))))
               = (String " " EmptyString, String ch (c ++ String "}" (body ++ "{endif}"))))
    by (cbn [span_space]; rewrite Hs; reflexivity).
  unfold match_if; rewrite P, D, Sp.
  pose proof Hc as Hc'; cbn [has_char] in Hc'; apply orb_false_iff in Hc' as [Hch _].
  rewrite Ascii.eqb_sym in Hch; rewrite Hch.
  change (String ch (c ++ String "}" (body ++ "{endif}")))
    with (String ch c ++ String "}" (body ++ "{endif}")).
  rewrite split_at_brace_app by exact Hc.
  rewrite Ascii.eqb_refl, split_at_endif_app by exact Hb.
  cbn [String.length]; rewrite Nat.sub_0_r, str_take_length; reflexivity.
Qed.

Lemma conditionals_scan_empty ev context fuel :
  conditionals_scan ev context EmptyString fuel = (EmptyString, []).
Proof. destruct fuel; reflexivity. Qed.

Lemma conditionals_scan_match ev context s f g1 g2 whole rest :
  match_if s = Some (g1, g2, whole, rest) ->
  conditionals_scan ev context s (S f) =
  (match ev (replace_context context (py_strip g1)) with
   | Some true => g2 | Some false => EmptyString | None => whole end
   ++ fst (conditionals_scan ev context rest f),
   replace_context context (py_strip g1) :: snd (conditionals_scan ev context rest f)).
Proof. intros H; cbn [conditionals_scan]; rewrite H; reflexivity. Qed.

(** C5 (code_bug): the condition of a conditional block is not checked
    against any grammar. For a block [{if c}body{endif}], the text [c]
    (stripped, with each context key replaced by its value) is handed to
    [eval] as it stands, and the block is rendered from the result:
    [body] when true, nothing when false, the block itself on an error. *)
Theorem C5_condition_passed_to_eval ev context ch c body :
  is_space ch = false -> has_char "}"%char (String ch c) = false ->
  has_char "{"%char body = false ->
  let T := "{if " ++ String ch c ++ "}" ++ body ++ "{endif}" in
  let cond := replace_context context (py_strip (String ch c)) in
  process_conditionals ev context T =
  (match ev cond with Some true => body | Some false => EmptyString | None => T end,
   [cond]).
Proof.
  intros Hs Hc Hb T cond.
  unfold process_conditionals.
  rewrite (conditionals_scan_match ev context T _ (String ch c) body T EmptyString)
    by (apply match_if_block; assumption).
  rewrite conditionals_scan_empty; cbn [fst snd].
  rewrite append_empty_right; reflexivity.
Qed.

Lemma C5_condition_passed_to_eval_witness :
  is_space "("%char = false /\
  has_char "}"%char "().__class__.__base__.__subclasses__()" = false /\
  has_char "{"%char "x" = false /\
  process_conditionals (fun _ => Some true) []
    "{if ().__class__.__base__.__subclasses__()}x{endif}" =
  ("x", ["().__class__.__base__.__subclasses__()"]) /\
  in_expr_vocabulary "().__class__.__base__.__subclasses__()" = false.
Proof.
  split; [reflexivity|]. split; [reflexivity|]. split; [reflexivity|]. split.
  - pose proof (C5_condition_passed_to_eval (fun _ => Some true) [] "("%char
      ").__class__.__base__.__subclasses__()" "x" eq_refl eq_refl eq_refl) as H.
    exact H.
  - reflexivity.
Defined.

(** ** The lexer *)

Lemma keyword_type_not_eof w : keyword_type w <> EOF.
Proof.
  unfold keyword_type, keywords; cbn [dict_get].
  repeat match goal with |- context [String.eqb ?a ?b] => destruct (String.eqb a b) end;
    discriminate.
Qed.

Lemma operator_not_eof op ty : dict_get op operators = Some ty -> ty <> EOF.
Proof.
  unfold operators; cbn [dict_get].
  repeat match goal with |- context [String.eqb ?a ?b] => destruct (String.eqb a b) end;
    intros H; try discriminate; injection H as <-; discriminate.
Qed.

Lemma skip_ws_length text rest line ls :
  String.length (fst (fst (skip_ws text rest line ls))) <= String.length rest.
Proof.
  revert line ls; induction rest as [|c r IH]; intros line ls; cbn [skip_ws]; [cbn; lia|].
  destruct (is_space c); [destruct (Ascii.eqb c newline_char)|];
    cbn [String.length]; try (specialize (IH (line + 1)%Z (lpos text r)); lia);
    try (specialize (IH line ls); lia); cbn; lia.
Qed.

Lemma skip_comment_length rest : String.length (skip_comment rest) <= String.length rest.
Proof.
  induction rest as [|c r IH]; cbn [skip_comment]; [cbn; lia|].
  destruct (Ascii.eqb c newline_char); cbn [String.length]; lia.
Qed.

Lemma cons_fst_some c p v r :
  cons_fst c p = Some (v, r) -> exists v', p = Some (v', r) /\ v = String c v'.
Proof.
  destruct p as [[v' r']|]; cbn; intros H; [|discriminate].
  injection H as <- <-; eauto.
Qed.

Lemma string_body_length rest v r :
  string_body rest = Some (v, r) -> String.length r < String.length rest.
Proof.
  assert (G : forall n rest v r, String.length rest <= n ->
            string_body rest = Some (v, r) -> String.length r < String.length rest).
  { induction n as [|n IH]; intros rest0 v0 r0 Hn.
    - destruct rest0; cbn in Hn; [discriminate|lia].
    - destruct rest0 as [|c r1]; cbn [string_body]; [discriminate|].
      cbn [String.length] in Hn.
      destruct (Ascii.eqb c dquote_char); [intros H; injection H as _ <-; cbn; lia|].
      destruct (Ascii.eqb c backslash).
      + destruct r1 as [|d r2]; [discriminate|].
        intros H; apply cons_fst_some in H as [v1 [H _]].
        apply cons_fst_some in H as [v2 [H _]].
        apply IH in H; cbn [String.length] in *; lia.
      + intros H; apply cons_fst_some in H as [v1 [H _]].
        apply IH in H; cbn [String.length] in *; lia. }
  exact (G _ rest v r (le_n _)).
Qed.

Lemma span_number_length c r :
  py_isdigit c = true -> String.length (snd (span_number (String c r))) <= String.length r.
Proof.
  intros Hc; cbn [span_number]; rewrite Hc; cbn [orb snd].
  clear c Hc; induction r as [|c r IH]; cbn [span_number]; [cbn; lia|].
  destruct (py_isdigit c || Ascii.eqb c "."%char); cbn [snd String.length]; lia.
Qed.

Lemma py_isalpha_alnum c : py_isalpha c = true -> py_isalnum c = true.
Proof. unfold py_isalnum; cbv zeta; intros H; rewrite H; reflexivity. Qed.

Lemma span_ident_length c r :
  py_isalpha c || Ascii.eqb c "_"%char = true ->
  String.length (snd (span_ident (String c r))) <= String.length r.
Proof.
  intros Hc; cbn [span_ident].
  replace (py_isalnum c || Ascii.eqb c "_"%char) with true
    by (apply orb_true_iff in Hc as [H|H];
        [rewrite (py_isalpha_alnum c H)|rewrite H; symmetry; apply orb_true_r]; reflexivity).
  cbn [snd]; clear c Hc; induction r as [|c r IH]; cbn [span_ident]; [cbn; lia|].
  destruct (py_isalnum c || Ascii.eqb c "_"%char); cbn [snd String.length]; lia.
Qed.

Lemma template_body_length rest depth v r :
  template_body rest depth = Some (v, r) -> String.length r < String.length rest.
Proof.
  revert depth v r; induction rest as [|c r0 IH]; intros depth v r; cbn [template_body];
    [discriminate|].
  destruct (Ascii.eqb c "{"%char); [|destruct (Ascii.eqb c "}"%char);
    [destruct (depth =? 1); [intros H; injection H as _ <-; cbn; lia|]|]];
    intros H; apply cons_fst_some in H as [v1 [H _]]; apply IH in H;
    cbn [String.length]; lia.
Qed.

Lemma read_operator_length text st st' :
  read_operator text st = Some st' ->
  String.length (lrest st') < String.length (lrest st) /\
  (exists ty op col, dict_get op operators = Some ty /\
     ltokens st' = app (ltokens st) [mkToken ty op (lline st) col]).
Proof.
  unfold read_operator, emit; intros H.
  destruct (lrest st) as [|a [|b r]] eqn:E; cbn [String.length].
  - simpl in H; discriminate.
  - destruct (dict_get (String a EmptyString) operators) eqn:Ho.
    + injection H as <-; cbn [lrest ltokens lline]; split; [cbn; lia|do 3 eexists; split; [eassumption|reflexivity]].
    + discriminate.
  - destruct (dict_get (String a (String b EmptyString)) operators) eqn:Ho2.
    + injection H as <-; cbn [lrest ltokens lline]; split; [cbn; lia|do 3 eexists; split; [eassumption|reflexivity]].
    + destruct (dict_get (String a EmptyString) operators) eqn:Ho.
      * injection H as <-; cbn [lrest ltokens lline]; split; [cbn; lia|do 3 eexists; split; [eassumption|reflexivity]].
      * discriminate.
Qed.

Lemma no_eof_snoc l x :
  (forall t, In t l -> ttype t <> EOF) -> ttype x <> EOF ->
  forall t, In t (app l [x]) -> ttype t <> EOF.
Proof.
  intros Hl Hx t Ht; apply in_app_or in Ht as [Ht|[<-|[]]]; auto.
Qed.

Lemma str_drop_1_length r : String.length (str_drop 1 r) <= String.length r.
Proof. destruct r; cbn; lia. Qed.

(** Every run of the lexer's loop with enough rounds returns a token list
    ending in the EOF token, with no other EOF token, or raises one of its
    two errors. *)
Lemma lex_loop_shape text f st :
  String.length (lrest st) < f ->
  (forall t, In t (ltokens st) -> ttype t <> EOF) ->
  match lex_loop text f st with
  | LexOk ts => exists body line, ts = terminated_stream body line /\
                  forall t, In t body -> ttype t <> EOF
  | LexError m => exists n, m = "Unclosed string at line " ++ py_str_int n \/
                            m = "Unclosed template variable at line " ++ py_str_int n
  | LexOutOfFuel => False
  end.
Proof.
  revert st; induction f as [|f IH]; intros st Hf Ht; [lia|].
  cbn [lex_loop].
  destruct (lrest st) as [|c0 r0] eqn:E.
  { exists (ltokens st), (lline st); split; [reflexivity|exact Ht]. }
  pose proof (skip_ws_length text (String c0 r0) (lline st) (lline_start st)) as Hl.
  destruct (skip_ws text (String c0 r0) (lline st) (lline_start st))
    as [[rest1 line1] ls1] eqn:Hs.
  cbn [fst] in Hl.
  destruct rest1 as [|c r].
  { exists (ltokens st), line1; split; [reflexivity|exact Ht]. }
  cbn [String.length] in Hl, Hf.
  destruct (Ascii.eqb c "#"%char) eqn:Hh.
  { apply IH; [|exact Ht]. cbn [lrest].
    apply Ascii.eqb_eq in Hh; subst c; change (skip_comment (String "#" r)) with (skip_comment r).
    pose proof (skip_comment_length r); cbn [String.length]; lia. }
  destruct (Ascii.eqb c dquote_char) eqn:Hq.
  { destruct (string_body r) as [[v r']|] eqn:Hb.
    - apply IH.
      + apply string_body_length in Hb; cbn [lrest emit]; lia.
      + apply no_eof_snoc; [exact Ht|discriminate].
    - exists line1; left; reflexivity. }
  destruct (py_isdigit c) eqn:Hd.
  { pose proof (span_number_length c r Hd) as Hn.
    destruct (span_number (String c r)) as [v r'] eqn:Hsn; cbn [snd] in Hn.
    apply IH.
    - cbn [lrest emit]; lia.
    - apply no_eof_snoc; [exact Ht|discriminate]. }
  destruct (Ascii.eqb c "$"%char &&
            match r with String d _ => Ascii.eqb d "{"%char | _ => false end) eqn:Hdl.
  { destruct (template_body (str_drop 1 r) 1) as [[v r']|] eqn:Hb.
    - apply IH.
      + apply template_body_length in Hb; pose proof (str_drop_1_length r).
        cbn [lrest emit]; lia.
      + apply no_eof_snoc; [exact Ht|discriminate].
    - exists line1; right; reflexivity. }
  destruct (py_isalpha c || Ascii.eqb c "_"%char) eqn:Hi.
  { pose proof (span_ident_length c r Hi) as Hn.
    destruct (span_ident (String c r)) as [v r'] eqn:Hsn; cbn [snd] in Hn.
    apply IH.
    - cbn [lrest emit]; lia.
    - apply no_eof_snoc; [exact Ht|apply keyword_type_not_eof]. }
  destruct (read_operator text (mkLState (String c r) line1 ls1 (ltokens st)))
    as [st2|] eqn:Ho.
  { apply read_operator_length in Ho as [Hlen [ty [op [col [Hop Htok]]]]].
    cbn [lrest ltokens lline String.length] in Hlen, Htok.
    apply IH; [lia|]. rewrite Htok.
    apply no_eof_snoc; [exact Ht|exact (operator_not_eof op ty Hop)]. }
  apply IH; [cbn [lrest]; lia|exact Ht].
Qed.


(** X1 (tokenize_shape): Lexer.tokenize either returns a list of non-EOF tokens followed by exactly one EOF token, or raises one of its two errors, 'Unclosed string at line N' or 'Unclosed template variable at line N'; it always terminates. *)
Lemma tokenize_shape text :
  match tokenize text with
  | LexOk ts => exists body line, ts = terminated_stream body line /\
                  forall t, In t body -> ttype t <> EOF
  | LexError m => exists n, m = "Unclosed string at line " ++ py_str_int n \/
                            m = "Unclosed template variable at line " ++ py_str_int n
  | LexOutOfFuel => False
  end.
Proof. apply lex_loop_shape; [cbn [lrest]; lia|intros t []]. Qed.

(** ** Attribute errors come from a missing current token *)

Lemma as_ret {A} (a : A) : attr_sound (pret a).
Proof. intros s s' H; discriminate. Qed.

Lemma as_raise {A} e : e <> AttributeError -> attr_sound (praise (A := A) e).
Proof. intros He s s' H; injection H as -> _; contradiction. Qed.

Lemma as_error {A} msg : attr_sound (error (A := A) msg).
Proof.
  intros s s' H; unfold error in H; destruct (cur s) eqn:E; [discriminate|].
  injection H as <-; exact E.
Qed.

Lemma as_bind {A B} (m : PM A) (k : A -> PM B) :
  attr_sound m -> (forall a, attr_sound (k a)) -> attr_sound (pbind m k).
Proof.
  intros Hm Hk s s' H; unfold pbind in H.
  destruct (m s) as [a s1|e s1] eqn:E; [exact (Hk a s1 s' H)|].
  injection H as -> <-; exact (Hm s s1 E).
Qed.

Lemma as_cur_tok : attr_sound cur_tok.
Proof.
  intros s s' H; unfold cur_tok in H; destruct (cur s) eqn:E; [discriminate|].
  injection H as <-; exact E.
Qed.

Lemma as_eat toks ty v : attr_sound (eat toks ty v).
Proof.
  unfold eat; apply as_bind; [apply as_cur_tok|intros t].
  destruct (TokenType_beq (ttype t) ty); [destruct v as [v|]; [destruct (String.eqb (tvalue t) v)|]|];
    try apply as_error; intros s s' H; discriminate.
Qed.

Ltac as_tac :=
  repeat match goal with
  | |- attr_sound (if ?b then _ else _) => destruct b eqn:?
  | |- attr_sound (match ?b with _ => _ end) => destruct b eqn:?
  | |- attr_sound (pbind _ _) => apply as_bind; [|intro]
  | |- attr_sound (pret _) => apply as_ret
  | |- attr_sound (praise _) => apply as_raise; discriminate
  | |- attr_sound (error _) => apply as_error
  | |- attr_sound cur_tok => apply as_cur_tok
  | |- attr_sound (eat _ _ _) => apply as_eat
  end.

Lemma as_parse_attribute_value toks : attr_sound (parse_attribute_value toks).
Proof. unfold parse_attribute_value; as_tac. Qed.

Lemma as_parse_attribute_list toks fuel attrs :
  attr_sound (parse_attribute_list toks fuel attrs).
Proof.
  revert attrs; induction fuel as [|f IH]; intros attrs; cbn [parse_attribute_list];
    as_tac; auto using as_parse_attribute_value.
Qed.

Lemma as_parse_attributes toks fuel : attr_sound (parse_attributes toks fuel).
Proof. unfold parse_attributes; as_tac; apply as_parse_attribute_list. Qed.

Lemma as_parse_block stmt fuel : attr_sound stmt -> attr_sound (parse_block stmt fuel).
Proof. intros Hs; induction fuel as [|f IH]; cbn [parse_block]; as_tac; auto. Qed.

Lemma as_parse_name toks msg : attr_sound (parse_name toks msg).
Proof. unfold parse_name; as_tac. Qed.

Lemma as_parse_opt_attributes toks fuel : attr_sound (parse_opt_attributes toks fuel).
Proof. unfold parse_opt_attributes; as_tac; apply as_parse_attributes. Qed.

Lemma as_parse_bound toks msg : attr_sound (parse_bound toks msg).
Proof. unfold parse_bound; as_tac. Qed.

Lemma as_expect_loop_var toks v : attr_sound (expect_loop_var toks v).
Proof. unfold expect_loop_var; as_tac. Qed.

Lemma as_parse_statement toks fuel : attr_sound (parse_statement toks fuel).
Proof.
  induction fuel as [|f IH]; cbn [parse_statement]; as_tac.
  all: unfold parse_folder, parse_file, parse_for_loop, parse_output, parse_input; as_tac;
    auto using as_parse_name, as_parse_opt_attributes, as_parse_block, as_parse_bound,
      as_expect_loop_var.
Qed.

Lemma as_parse_nodes toks fuel : attr_sound (parse_nodes toks fuel).
Proof.
  induction fuel as [|f IH]; cbn [parse_nodes]; as_tac; auto using as_parse_statement.
Qed.

(** X8 (tokenize_then_parse): Parsing the output of a successful tokenize never raises AttributeError and never moves the parser past the last token of the list. *)
Theorem tokenize_then_parse text ts fuel :
  tokenize text = LexOk ts ->
  (forall s, parse ts fuel <> PFail AttributeError s) /\
  pos (res_state (parse ts fuel)) < length ts.
Proof.
  intros H; pose proof (tokenize_shape text) as Hs; rewrite H in Hs.
  destruct Hs as [body [line [-> Hb]]].
  pose proof (parse_within body line Hb fuel) as [Hp Hc].
  assert (Hlen : length (terminated_stream body line) = S (length body)).
  { unfold terminated_stream; rewrite length_app; cbn; lia. }
  split; [|lia].
  intros s Hf.
  pose proof (as_parse_nodes _ fuel _ s Hf) as Hn.
  rewrite Hf in Hc; cbn [res_state] in Hc; rewrite Hn in Hc.
  rewrite Hf in Hp; cbn [res_state] in Hp.
  symmetry in Hc; apply nth_error_None in Hc; lia.
Qed.


Lemma tokenize_then_parse_witness :
  tokenize ex_text =
    LexOk [mkToken STDOUT "stdout" 1 1; mkToken LSHIFT "<<" 1 8;
           mkToken STRING "hi" 1 12; mkToken STDIN "stdin" 1 16;
           mkToken RSHIFT ">>" 1 22; mkToken IDENTIFIER "name" 1 25;
           mkToken EOF "" 1 0] /\
  pos (res_state (parse [mkToken STDOUT "stdout" 1 1; mkToken LSHIFT "<<" 1 8;
           mkToken STRING "hi" 1 12; mkToken STDIN "stdin" 1 16;
           mkToken RSHIFT ">>" 1 22; mkToken IDENTIFIER "name" 1 25;
           mkToken EOF "" 1 0] 5)) < 7.
Proof.
  assert (H : tokenize ex_text =
    LexOk [mkToken STDOUT "stdout" 1 1; mkToken LSHIFT "<<" 1 8;
           mkToken STRING "hi" 1 12; mkToken STDIN "stdin" 1 16;
           mkToken RSHIFT ">>" 1 22; mkToken IDENTIFIER "name" 1 25;
           mkToken EOF "" 1 0]) by (vm_compute; reflexivity).
  split; [exact H|].
  exact (proj2 (tokenize_then_parse ex_text _ 5 H)).
Defined.

Ltac char_cases c :=
  destruct c as [[] [] [] [] [] [] [] []]; vm_compute;
  first [ intros; discriminate | intros; repeat split | repeat split ].

Lemma ident_start_class c :
  py_isalpha c || Ascii.eqb c "_"%char = true ->
  is_space c = false /\ Ascii.eqb c "#"%char = false /\ Ascii.eqb c dquote_char = false /\
  py_isdigit c = false /\ Ascii.eqb c "$"%char = false.
Proof. char_cases c. Qed.

Lemma skip_ws_nonspace text c r line ls :
  is_space c = false -> skip_ws text (String c r) line ls = (String c r, line, ls).
Proof. intros H; cbn [skip_ws]; rewrite H; reflexivity. Qed.


Lemma span_ident_all r :
  all_chars (fun c => py_isalnum c || Ascii.eqb c "_"%char) r = true ->
  span_ident r = (r, EmptyString).
Proof.
  induction r as [|c r IH]; cbn [all_chars span_ident]; [reflexivity|].
  intros H; apply andb_true_iff in H as [Hc Hr]; rewrite Hc, IH by exact Hr; reflexivity.
Qed.


(** One round of the lexer's loop, by the character after the white space. *)
Section Rounds.

Variable text : string.
Variables (f : nat) (st : LState) (c : ascii) (r : string) (line1 : Z) (ls1 : nat).
Hypothesis Hws : skip_ws text (lrest st) (lline st) (lline_start st) = (String c r, line1, ls1).

Lemma round_unfold :
  lex_loop text (S f) st =
  let st1 := mkLState (String c r) line1 ls1 (ltokens st) in
  let col := lcol (lpos text (String c r)) ls1 in
  if Ascii.eqb c "#"%char then
    lex_loop text f (mkLState (skip_comment (String c r)) line1 ls1 (ltokens st))
  else if Ascii.eqb c dquote_char then
    match string_body r with
    | Some (value, r') => lex_loop text f (emit STRING value (lcol (lpos text r) ls1) r' st1)
    | None => LexError ("Unclosed string at line " ++ py_str_int line1)
    end
  else if py_isdigit c then
    let (value, r') := span_number (String c r) in
    lex_loop text f (emit NUMBER value col r' st1)
  else if Ascii.eqb c "$"%char &&
          match r with String d _ => Ascii.eqb d "{"%char | _ => false end then
    match template_body (str_drop 1 r) 1 with
    | Some (content, r') => lex_loop text f (emit TEMPLATE_VAR (py_strip content) col r' st1)
    | None => LexError ("Unclosed template variable at line " ++ py_str_int line1)
    end
  else if py_isalpha c || Ascii.eqb c "_"%char then
    let (value, r') := span_ident (String c r) in
    lex_loop text f (emit (keyword_type (lower value)) value col r' st1)
  else
    match read_operator text st1 with
    | Some st2 => lex_loop text f st2
    | None => lex_loop text f (mkLState r line1 ls1 (ltokens st))
    end.
Proof.
  cbn [lex_loop]; destruct (lrest st) as [|c0 r0] eqn:E.
  - cbn in Hws; discriminate.
  - rewrite Hws; reflexivity.
Qed.

End Rounds.

Lemma string_body_closed s r :
  has_char dquote_char s = false -> has_char backslash s = false ->
  string_body (s ++ String dquote_char r) = Some (s, r).
Proof.
  induction s as [|c s IH]; intros Hq Hb; [reflexivity|].
  cbn [has_char] in Hq, Hb; apply orb_false_iff in Hq as [Hq1 Hq2];
    apply orb_false_iff in Hb as [Hb1 Hb2].
  cbn [String.append string_body].
  rewrite Ascii.eqb_sym, Hq1, Ascii.eqb_sym, Hb1, IH by assumption; reflexivity.
Qed.

Lemma string_body_unclosed s :
  has_char dquote_char s = false -> string_body s = None.
Proof.
  assert (G : forall n s, String.length s <= n -> has_char dquote_char s = false ->
                          string_body s = None).
  { induction n as [|n IH]; intros s0 Hn Hq.
    - destruct s0; [reflexivity|cbn in Hn; lia].
    - destruct s0 as [|c r]; [reflexivity|].
      cbn [has_char] in Hq; apply orb_false_iff in Hq as [Hq1 Hq2].
      cbn [String.length] in Hn; cbn [string_body].
      rewrite Ascii.eqb_sym, Hq1.
      destruct (Ascii.eqb c backslash).
      + destruct r as [|d r']; [reflexivity|].
        cbn [has_char] in Hq2; apply orb_false_iff in Hq2 as [_ Hq3].
        cbn [String.length] in Hn; rewrite IH by (lia || assumption); reflexivity.
      + rewrite IH by (lia || assumption); reflexivity. }
  intros Hq; exact (G _ s (le_n _) Hq).
Qed.

Lemma lex_finish_empty text f st :
  lrest st = EmptyString -> lex_loop text (S f) st = finish st.
Proof. intros H; cbn [lex_loop]; rewrite H; reflexivity. Qed.

(** X2 (tokenize_string_literal): A double quote followed by text without a double quote fails with 'Unclosed string at line 1'; when the text also has no backslash and is closed by a double quote, the lexer returns one STRING token holding the text, at column 2, followed by EOF. *)
Theorem tokenize_string_literal s :
  has_char dquote_char s = false ->
  tokenize (String dquote_char s) = LexError "Unclosed string at line 1" /\
  (has_char backslash s = false ->
   tokenize (String dquote_char (s ++ String dquote_char EmptyString)) =
   LexOk [mkToken STRING s 1 2; mkToken EOF "" 1 0]).
Proof.
  intros Hq; split.
  - unfold tokenize; cbn [String.length].
    rewrite (round_unfold _ _ _ dquote_char s 1 0) by reflexivity; cbv zeta.
    change (Ascii.eqb dquote_char "#"%char) with false;
      change (Ascii.eqb dquote_char dquote_char) with true; cbv iota.
    rewrite string_body_unclosed by exact Hq; reflexivity.
  - intros Hb; unfold tokenize; cbn [String.length].
    rewrite (round_unfold _ _ _ dquote_char (s ++ String dquote_char EmptyString) 1 0)
      by reflexivity; cbv zeta.
    change (Ascii.eqb dquote_char "#"%char) with false;
      change (Ascii.eqb dquote_char dquote_char) with true; cbv iota.
    rewrite string_body_closed by assumption.
    rewrite lex_finish_empty by reflexivity.
    unfold finish, emit, lcol, lpos; cbn [ltokens lline app String.length].
    replace (S (String.length (s ++ String dquote_char EmptyString)) -
             String.length (s ++ String dquote_char EmptyString)) with 1 by lia.
    reflexivity.
Qed.

Lemma template_body_closed s r :
  has_char "{"%char s = false -> has_char "}"%char s = false ->
  template_body (s ++ String "}"%char r) 1 = Some (s, r).
Proof.
  induction s as [|c s IH]; intros Ho Hc; [reflexivity|].
  cbn [has_char] in Ho, Hc; apply orb_false_iff in Ho as [Ho1 Ho2];
    apply orb_false_iff in Hc as [Hc1 Hc2].
  cbn [String.append template_body].
  rewrite Ascii.eqb_sym, Ho1, Ascii.eqb_sym, Hc1, IH by assumption; reflexivity.
Qed.

Lemma template_body_unclosed s depth :
  has_char "}"%char s = false -> template_body s depth = None.
Proof.
  revert depth; induction s as [|c s IH]; intros depth Hc; [reflexivity|].
  cbn [has_char] in Hc; apply orb_false_iff in Hc as [Hc1 Hc2].
  cbn [template_body]; rewrite Ascii.eqb_sym in Hc1; rewrite Hc1.
  destruct (Ascii.eqb c "{"%char); rewrite IH by exact Hc2; reflexivity.
Qed.

(** X3 (tokenize_template_var): For text whose characters are below U+0100: '${' followed by text without '}' fails with 'Unclosed template variable at line 1'; when the text also has no '{' and is closed by '}', the lexer returns one TEMPLATE_VAR token holding the text stripped of str.isspace characters, followed by EOF. *)
Theorem tokenize_template_var s :
  has_char "}"%char s = false ->
  tokenize ("${" ++ s) = LexError "Unclosed template variable at line 1" /\
  (has_char "{"%char s = false ->
   tokenize ("${" ++ s ++ "}") = LexOk [mkToken TEMPLATE_VAR (py_strip s) 1 1;
                                        mkToken EOF "" 1 0]).
Proof.
  intros Hc; split.
  - unfold tokenize; cbn [String.length String.append].
    rewrite (round_unfold _ _ _ "$"%char (String "{"%char s) 1 0) by reflexivity;
      cbv zeta.
    change (Ascii.eqb "$"%char "#"%char) with false;
      change (Ascii.eqb "$"%char dquote_char) with false;
      change (py_isdigit "$"%char) with false;
      change (Ascii.eqb "$"%char "$"%char && Ascii.eqb "{"%char "{"%char) with true;
      cbv iota.
    change (str_drop 1 (String "{"%char s)) with s.
    rewrite template_body_unclosed by exact Hc; reflexivity.
  - intros Ho; unfold tokenize; cbn [String.length String.append].
    rewrite (round_unfold _ _ _ "$"%char (String "{"%char (s ++ "}")) 1 0) by reflexivity;
      cbv zeta.
    change (Ascii.eqb "$"%char "#"%char) with false;
      change (Ascii.eqb "$"%char dquote_char) with false;
      change (py_isdigit "$"%char) with false;
      change (Ascii.eqb "$"%char "$"%char && Ascii.eqb "{"%char "{"%char) with true;
      cbv iota.
    change (str_drop 1 (String "{"%char (s ++ "}"))) with (s ++ String "}"%char EmptyString).
    rewrite template_body_closed by assumption.
    rewrite lex_finish_empty by reflexivity.
    unfold finish, emit, lcol, lpos; cbn [ltokens lline app String.length].
    rewrite Nat.sub_diag; reflexivity.
Qed.

Lemma span_number_all c r rest :
  all_chars (fun c => py_isdigit c || Ascii.eqb c "."%char) (String c r) = true ->
  match rest with
  | String d _ => negb (py_isdigit d || Ascii.eqb d "."%char)
  | EmptyString => true
  end = true ->
  span_number (String c r ++ rest) = (String c r, rest).
Proof.
  revert c; induction r as [|c' r IH]; intros c Hall Hnext.
  - cbn [all_chars] in Hall; rewrite andb_true_r in Hall.
    cbn [String.append span_number]; rewrite Hall.
    destruct rest as [|d r']; [reflexivity|].
    cbn [span_number]; apply negb_true_iff in Hnext; rewrite Hnext; reflexivity.
  - cbn [all_chars] in Hall; apply andb_true_iff in Hall as [Hc Hr].
    change (String c (String c' r) ++ rest) with (String c (String c' r ++ rest)).
    cbn [span_number]; rewrite Hc.
    change (span_number (String c' r ++ rest)) with (span_number (String c' (r ++ rest))).
    pose proof (IH c' Hr Hnext) as E; cbn [String.append] in E; rewrite E; reflexivity.
Qed.

Lemma all_chars_forallb p s : all_chars p s = forallb p (list_ascii_of_string s).
Proof. induction s as [|c s IH]; cbn; [reflexivity|rewrite IH; reflexivity]. Qed.

Lemma all_chars_impl (p q : ascii -> bool) s :
  (forall c, p c = true -> q c = true) -> all_chars p s = true -> all_chars q s = true.
Proof.
  intros Hpq; induction s as [|c s IH]; cbn [all_chars]; [reflexivity|].
  intros H; apply andb_true_iff in H as [H1 H2]; rewrite (Hpq c H1), (IH H2); reflexivity.
Qed.

Lemma lstrip_keep s :
  forallb (fun c => negb (is_space c)) (list_ascii_of_string s) = true -> lstrip s = s.
Proof.
  destruct s as [|c s]; [reflexivity|]; cbn; intros H.
  apply andb_true_iff in H as [H _]; apply negb_true_iff in H; rewrite H; reflexivity.
Qed.

Lemma py_strip_keep s :
  all_chars (fun c => negb (is_space c)) s = true -> py_strip s = s.
Proof.
  rewrite all_chars_forallb; intros H; unfold py_strip; rewrite (lstrip_keep s H).
  rewrite lstrip_keep.
  - rewrite list_ascii_of_string_of_list_ascii, rev_involutive, string_of_list_ascii_of_string.
    reflexivity.
  - rewrite list_ascii_of_string_of_list_ascii; apply forallb_forall; intros x Hx.
    rewrite <- in_rev in Hx; rewrite forallb_forall in H; auto.
Qed.

Lemma digit_run_dot b is_d s :
  is_d "."%char = false ->
  (forall acc n, has_char "."%char s = true -> digit_run b is_d s acc n = None) /\
  (forall c acc n, has_char "."%char (String c s) = true ->
     digit_run b is_d (String c s) acc n = None).
Proof.
  intros Hd; induction s as [|d s [IH1 IH2]]; split.
  - intros acc n H; discriminate H.
  - intros c acc n H; cbn [has_char] in H; rewrite orb_false_r in H.
    apply Ascii.eqb_eq in H; subst c; cbn; rewrite Hd; reflexivity.
  - intros acc n H; exact (IH2 d acc n H).
  - intros c acc n H; cbn [has_char] in H; cbn [digit_run].
    destruct (Ascii.eqb c "_"%char) eqn:Eu.
    + apply Ascii.eqb_eq in Eu; subst c.
      replace (Ascii.eqb "."%char "_"%char) with false in H by reflexivity.
      cbn [orb has_char] in H.
      destruct (Ascii.eqb "."%char d) eqn:Ed.
      * apply Ascii.eqb_eq in Ed; subst d; rewrite Hd; reflexivity.
      * destruct (is_d d); [|reflexivity]; apply IH1; exact H.
    + destruct (is_d c) eqn:Ec; [|reflexivity].
      apply IH2; apply orb_true_iff in H as [H|H]; [|exact H].
      apply Ascii.eqb_eq in H; subst c; rewrite Hd in Ec; discriminate.
Qed.

(** X4 (tokenize_number_literal): For text whose characters are below U+0100: a str.isdigit character followed by str.isdigit characters and dots lexes as a single NUMBER token; if that text contains a dot, parse_attribute_value raises ValueError on the token (int() of a decimal). *)
Theorem tokenize_number_literal c r toks p :
  py_isdigit c = true ->
  all_chars (fun c => py_isdigit c || Ascii.eqb c "."%char) r = true ->
  tokenize (String c r) = LexOk [mkToken NUMBER (String c r) 1 1; mkToken EOF "" 1 0] /\
  (has_char "."%char r = true ->
   parse_attribute_value toks (mkPState p (Some (mkToken NUMBER (String c r) 1 1))) =
   PFail ValueError (mkPState p (Some (mkToken NUMBER (String c r) 1 1)))).
Proof.
  intros Hd Hr; split.
  - unfold tokenize; cbn [String.length].
    assert (Hs : is_space c = false).
    { revert Hd; char_cases c. }
    assert (Hh : Ascii.eqb c "#"%char = false /\ Ascii.eqb c dquote_char = false).
    { revert Hd; char_cases c. }
    rewrite (round_unfold _ _ _ c r 1 0) by (apply skip_ws_nonspace; exact Hs); cbv zeta.
    destruct Hh as [Hh Hq]; rewrite Hh, Hq, Hd; cbv iota.
    assert (E : span_number (String c r) = (String c r, EmptyString)).
    { pose proof (span_number_all c r EmptyString) as E.
      rewrite append_empty_right in E; apply E; [|reflexivity].
      cbn [all_chars]; rewrite Hd, Hr; reflexivity. }
    rewrite E.
    rewrite lex_finish_empty by reflexivity.
    unfold finish, emit, lcol, lpos; cbn [ltokens lline app String.length].
    rewrite Nat.sub_diag; reflexivity.
  - intros Hdot; unfold parse_attribute_value, pbind, cur_tok; cbn [cur ttype tvalue].
    assert (Hc : is_space c = false /\ Ascii.eqb c "-"%char = false /\
                 Ascii.eqb c "+"%char = false) by (revert Hd; char_cases c).
    destruct Hc as (Hs & Hm & Hp).
    unfold py_int; rewrite py_strip_keep.
    + cbn [int_sign]; rewrite Hm, Hp; destruct (is_digit c); [|reflexivity].
      rewrite (proj1 (digit_run_dot 10 is_digit r eq_refl)) by exact Hdot; reflexivity.
    + cbn [all_chars]; rewrite Hs; cbn [negb andb].
      apply (all_chars_impl (fun c => py_isdigit c || Ascii.eqb c "."%char) _ r); [|exact Hr].
      intros x Hx; apply negb_true_iff; revert Hx; char_cases x.
Qed.

Lemma keyword_type_chain w :
  keyword_type w =
  if String.eqb w "folder" then FOLDER
  else if String.eqb w "file" then FILE
  else if String.eqb w "for" then FOR
  else if String.eqb w "if" then IF
  else if String.eqb w "else" then ELSE
  else if String.eqb w "stdout" then STDOUT
  else if String.eqb w "stdin" then STDIN
  else IDENTIFIER.
Proof.
  unfold keyword_type, keywords; cbn [dict_get].
  repeat match goal with |- context [String.eqb w ?k] => destruct (String.eqb w k) end;
    reflexivity.
Qed.

(** X5 (tokenize_word): For text whose characters are below U+0100: a word made of a str.isalpha character or underscore followed by str.isalnum characters and underscores lexes as one token whose type is chosen case-insensitively: folder, file, for, if, else, stdout and stdin give their keyword types, every other word (including true, false, null) gives IDENTIFIER; the token keeps the original spelling. *)
Theorem tokenize_word c r :
  py_isalpha c || Ascii.eqb c "_"%char = true ->
  all_chars (fun c => py_isalnum c || Ascii.eqb c "_"%char) r = true ->
  let l := lower (String c r) in
  tokenize (String c r) =
  LexOk [mkToken (if String.eqb l "folder" then FOLDER
                  else if String.eqb l "file" then FILE
                  else if String.eqb l "for" then FOR
                  else if String.eqb l "if" then IF
                  else if String.eqb l "else" then ELSE
                  else if String.eqb l "stdout" then STDOUT
                  else if String.eqb l "stdin" then STDIN
                  else IDENTIFIER) (String c r) 1 1;
         mkToken EOF "" 1 0].
Proof.
  intros Hc Hr l; rewrite <- keyword_type_chain.
  destruct (ident_start_class c Hc) as (Hs & Hh & Hq & Hd & Hdl).
  unfold tokenize; cbn [String.length].
  rewrite (round_unfold _ _ _ c r 1 0) by (apply skip_ws_nonspace; exact Hs); cbv zeta.
  rewrite Hh, Hq, Hd, Hdl, Hc; cbn [andb]; cbv iota.
  rewrite (span_ident_all (String c r)) by (cbn [all_chars]; rewrite Hr, andb_true_r;
    apply orb_true_iff in Hc as [H|H];
    [rewrite (py_isalpha_alnum c H)|rewrite H; apply orb_true_r]; reflexivity).
  rewrite lex_finish_empty by reflexivity.
  unfold finish, emit, lcol, lpos; cbn [ltokens lline app String.length].
  rewrite Nat.sub_diag; reflexivity.
Qed.


Lemma skip_ws_spaces text w rest line ls :
  all_chars is_space w = true ->
  exists ls', skip_ws text (w ++ rest) line ls =
              skip_ws text rest (line + Z.of_nat (count_char newline_char w))%Z ls'.
Proof.
  revert line ls; induction w as [|c w IH]; intros line ls Hw.
  - exists ls; cbn; rewrite Z.add_0_r; reflexivity.
  - cbn [all_chars] in Hw; apply andb_true_iff in Hw as [Hc Hw].
    cbn [String.append skip_ws count_char]; rewrite Hc, (Ascii.eqb_sym newline_char c).
    destruct (Ascii.eqb c newline_char).
    + destruct (IH (line + 1)%Z (lpos text (w ++ rest)) Hw) as [ls' E].
      exists ls'; rewrite E; f_equal; lia.
    + destruct (IH line ls Hw) as [ls' E]; exists ls'; rewrite E; reflexivity.
Qed.

Lemma skip_comment_no_newline s :
  has_char newline_char s = false -> skip_comment s = EmptyString.
Proof.
  induction s as [|c s IH]; intros H; [reflexivity|].
  cbn [has_char] in H; apply orb_false_iff in H as [H1 H2].
  cbn [skip_comment]; rewrite Ascii.eqb_sym, H1; exact (IH H2).
Qed.

Lemma length_append_cons w c s :
  String.length (w ++ String c s) = S (String.length w + String.length s).
Proof. induction w as [|d w IH]; cbn; [reflexivity|rewrite IH; reflexivity]. Qed.

(** X6 (tokenize_blank): For text whose characters are below U+0100: text made only of str.isspace characters, optionally followed by a '#' comment without a newline, lexes to the EOF token alone, whose line is one plus the number of newlines in the white space. *)
Theorem tokenize_blank w s :
  all_chars is_space w = true -> has_char newline_char s = false ->
  tokenize w = LexOk [mkToken EOF "" (1 + Z.of_nat (count_char newline_char w)) 0] /\
  tokenize (w ++ String "#"%char s) =
  LexOk [mkToken EOF "" (1 + Z.of_nat (count_char newline_char w)) 0].
Proof.
  intros Hw Hs; split.
  - destruct w as [|c w']; [reflexivity|].
    destruct (skip_ws_spaces (String c w') (String c w') EmptyString 1 0 Hw) as [ls' E].
    rewrite append_empty_right in E.
    unfold tokenize; cbn [String.length lex_loop lrest lline lline_start].
    rewrite E; reflexivity.
  - destruct (skip_ws_spaces (w ++ String "#"%char s) w (String "#"%char s) 1 0 Hw)
      as [ls' E].
    unfold tokenize; rewrite length_append_cons.
    rewrite (round_unfold _ _ _ "#"%char s (1 + Z.of_nat (count_char newline_char w))%Z ls')
      by (cbn [lrest lline lline_start]; rewrite E; reflexivity).
    cbv zeta; change (Ascii.eqb "#"%char "#"%char) with true; cbv iota.
    change (skip_comment (String "#"%char s)) with (skip_comment s).
    rewrite skip_comment_no_newline by exact Hs.
    rewrite Nat.add_comm; cbn [Nat.add].
    rewrite lex_finish_empty by reflexivity; reflexivity.
Qed.

Lemma lex_loop_prefix text f st ts :
  lex_loop text f st = LexOk ts -> exists ts', ts = app (ltokens st) ts'.
Proof.
  revert st; induction f as [|f IH]; intros st H; cbn [lex_loop] in H; [discriminate|].
  destruct (lrest st) as [|c0 r0].
  { injection H as <-; eauto. }
  destruct (skip_ws text (String c0 r0) (lline st) (lline_start st))
    as [[rest1 line1] ls1].
  destruct rest1 as [|c r].
  { injection H as <-; eauto. }
  assert (Snoc : forall x st', lex_loop text f st' = LexOk ts ->
                 ltokens st' = app (ltokens st) [x] -> exists ts', ts = app (ltokens st) ts').
  { intros x st' H' E; destruct (IH st' H') as [ts' ->]; rewrite E, <- app_assoc; eauto. }
  destruct (Ascii.eqb c "#"%char); [apply IH in H; exact H|].
  destruct (Ascii.eqb c dquote_char);
    [destruct (string_body r) as [[v r']|]; [eapply Snoc; [exact H|reflexivity]|discriminate]|].
  destruct (py_isdigit c);
    [destruct (span_number (String c r)); eapply Snoc; [exact H|reflexivity]|].
  destruct (_ && _);
    [destruct (template_body _ _) as [[v r']|]; [eapply Snoc; [exact H|reflexivity]|discriminate]|].
  destruct (_ || _);
    [destruct (span_ident (String c r)); eapply Snoc; [exact H|reflexivity]|].
  destruct (read_operator text _) as [st2|] eqn:Ho.
  - apply read_operator_length in Ho as [_ [ty [op [col [_ E]]]]].
    eapply Snoc; [exact H|exact E].
  - apply IH in H; exact H.
Qed.

Lemma round_operator text f st a b r line1 ls1 ty :
  skip_ws text (lrest st) (lline st) (lline_start st) = (String a (String b r), line1, ls1) ->
  Ascii.eqb a "#"%char = false -> Ascii.eqb a dquote_char = false -> py_isdigit a = false ->
  Ascii.eqb a "$"%char = false -> py_isalpha a || Ascii.eqb a "_"%char = false ->
  dict_get (String a (String b EmptyString)) operators = Some ty ->
  lex_loop text (S f) st =
  lex_loop text f (mkLState r line1 ls1
    (app (ltokens st) [mkToken ty (String a (String b EmptyString)) line1
                         (lcol (lpos text (String a (String b r))) ls1)])).
Proof.
  intros Hws H1 H2 H3 H4 H5 Ho.
  rewrite (round_unfold text f st a (String b r) line1 ls1 Hws); cbv zeta.
  rewrite H1, H2, H3, H4, H5; cbn [andb].
  unfold read_operator; cbn [lrest]; rewrite Ho; reflexivity.
Qed.

(** X7 (tokenize_two_char_operator): When the text starts with one of the two-character operators, the first token is that operator with its type, never its first character alone. *)
Theorem tokenize_two_char_operator o ty r ts :
  dict_get o operators = Some ty -> String.length o = 2 ->
  tokenize (o ++ r) = LexOk ts -> exists ts', ts = mkToken ty o 1 1 :: ts'.
Proof.
  intros Ho Hl Ht.
  destruct o as [|a [|b [|x y]]]; cbn in Hl; try lia; clear Hl.
  assert (Hcase : forall ty, dict_get (String a (String b EmptyString)) operators = Some ty ->
            Ascii.eqb a "#"%char = false /\ Ascii.eqb a dquote_char = false /\
            py_isdigit a = false /\ Ascii.eqb a "$"%char = false /\
            py_isalpha a || Ascii.eqb a "_"%char = false /\ is_space a = false).
  { intros ty' H; unfold operators in H; cbn [dict_get] in H.
    repeat (let E := fresh "E" in
            destruct (String.eqb _ _) eqn:E in H;
            [apply String.eqb_eq in E; inversion E; subst; repeat split; reflexivity|]).
    discriminate. }
  destruct (Hcase ty Ho) as (H1 & H2 & H3 & H4 & H5 & H6).
  unfold tokenize in Ht; cbn [String.append String.length] in Ht.
  rewrite (round_operator _ _ _ a b r 1 0 ty) in Ht
    by (try assumption; cbn [lrest lline lline_start]; apply skip_ws_nonspace; exact H6).
  apply lex_loop_prefix in Ht as [ts' ->]; cbn [ltokens app].
  unfold lcol, lpos; rewrite Nat.sub_diag; eauto.
Qed.

Lemma tokenize_string_literal_witness :
  tokenize (String dquote_char "a b") = LexError "Unclosed string at line 1" /\
  tokenize (String dquote_char ("a b" ++ String dquote_char EmptyString)) =
  LexOk [mkToken STRING "a b" 1 2; mkToken EOF "" 1 0].
Proof.
  destruct (tokenize_string_literal "a b" eq_refl) as [H1 H2].
  split; [exact H1 | exact (H2 eq_refl)].
Defined.

Lemma tokenize_template_var_witness :
  tokenize ("${" ++ " name ") = LexError "Unclosed template variable at line 1" /\
  tokenize ("${" ++ " name " ++ "}") =
  LexOk [mkToken TEMPLATE_VAR (py_strip " name ") 1 1; mkToken EOF "" 1 0].
Proof.
  destruct (tokenize_template_var " name " eq_refl) as [H1 H2].
  split; [exact H1 | exact (H2 eq_refl)].
Defined.

Lemma tokenize_number_literal_witness :
  tokenize "1.5" = LexOk [mkToken NUMBER "1.5" 1 1; mkToken EOF "" 1 0] /\
  parse_attribute_value [] (mkPState 0 (Some (mkToken NUMBER "1.5" 1 1))) =
  PFail ValueError (mkPState 0 (Some (mkToken NUMBER "1.5" 1 1))).
Proof.
  destruct (tokenize_number_literal "1" ".5" [] 0 eq_refl eq_refl) as [H1 H2].
  split; [exact H1 | exact (H2 eq_refl)].
Defined.

Lemma tokenize_word_witness :
  tokenize "FoLdEr" = LexOk [mkToken FOLDER "FoLdEr" 1 1; mkToken EOF "" 1 0].
Proof. exact (tokenize_word "F" "oLdEr" eq_refl eq_refl). Defined.

Lemma tokenize_blank_witness :
  tokenize (" " ++ String newline_char " ") = LexOk [mkToken EOF "" 2 0] /\
  tokenize ((" " ++ String newline_char " ") ++ String "#"%char " c") =
  LexOk [mkToken EOF "" 2 0].
Proof. exact (tokenize_blank (" " ++ String newline_char " ") " c" eq_refl eq_refl). Defined.

Lemma tokenize_two_char_operator_witness :
  dict_get "<=" operators = Some LE /\
  exists ts', tokenize ("<=" ++ " 3") = LexOk (mkToken LE "<=" 1 1 :: ts').
Proof.
  split; [reflexivity|].
  destruct (tokenize ("<=" ++ " 3")) as [ts| |] eqn:E.
  - destruct (tokenize_two_char_operator "<=" LE " 3" ts eq_refl eq_refl E) as [ts' ->].
    exists ts'; reflexivity.
  - vm_compute in E; discriminate.
  - vm_compute in E; discriminate.
Defined.

(** ** Attribute values and statements in the parser *)

Lemma pav_string toks p t :
  ttype t = STRING ->
  parse_attribute_value toks (mkPState p (Some t)) =
  (match file_type_of_value (lower (tvalue t)) with
   | Some ft => pret (AFileType ft)
   | None => match permission_of_value (tvalue t) with
             | Some pm => pret (APerm pm)
             | None => pret (AStr (tvalue t))
             end
   end) (mkPState (S p) (Some (token_at toks (S p)))).
Proof.
  intros H; unfold parse_attribute_value; rewrite pbind_cur_step, H.
  unfold pbind; rewrite eat_run by exact H; reflexivity.
Qed.

(** X10 (parse_unexpected_statement): A token list whose first token is not folder, file, for, stdout, stdin or EOF (for instance an if or else keyword) is rejected with 'Unexpected token: <repr>' at that token's line and column. *)
Theorem parse_unexpected_statement t rest fuel :
  ttype t <> FOLDER -> ttype t <> FILE -> ttype t <> FOR ->
  ttype t <> STDOUT -> ttype t <> STDIN -> ttype t <> EOF ->
  parse (t :: rest) (S (S fuel)) =
  PFail (SyntaxError ("Unexpected token: " ++ token_repr t) (tline t) (tcol t))
        (mkPState 0 (Some t)).
Proof.
  intros H1 H2 H3 H4 H5 H6; unfold parse, init_pstate; cbn [hd_error parse_nodes].
  rewrite pbind_cur_step.
  destruct (ttype t) eqn:E; try contradiction; cbn [TokenType_beq];
    (apply pbind_fail_step; cbn [parse_statement]; rewrite pbind_cur_step, E;
     reflexivity).
Qed.

Lemma parse_unexpected_statement_witness :
  parse [mkToken IF "if" 1 1; mkToken IDENTIFIER "x" 1 4; mkToken EOF "" 1 0] 4 =
  PFail (SyntaxError ("Unexpected token: " ++ token_repr (mkToken IF "if" 1 1)) 1 1)
        (mkPState 0 (Some (mkToken IF "if" 1 1))).
Proof.
  apply (parse_unexpected_statement (mkToken IF "if" 1 1) _ 2); discriminate.
Defined.




Lemma token_at_after pre l k :
  token_at (pre ++ l) (length pre + k) = match nth_error l k with
                                          | Some t => t | None => eof_default end.
Proof. unfold token_at; rewrite Nat.add_comm, nth_error_after; reflexivity. Qed.

Lemma pal_item pre n v c tail f acc :
  plain_string_value v = true ->
  let toks := (pre ++ attr_item_tokens (n, v, c) ++ tail)%list in
  let q := length pre + length (attr_item_tokens (n, v, c)) in
  (c = false -> ttype (token_at toks q) <> COMMA) ->
  parse_attribute_list toks (S f) acc (mkPState (length pre) (Some (mkToken IDENTIFIER n 1 1))) =
  parse_attribute_list toks f (dict_set n (AStr v) acc) (mkPState q (Some (token_at toks q))).
Proof.
  intros Hv toks q Hc.
  unfold plain_string_value in Hv.
  destruct (file_type_of_value (lower v)) eqn:E1; [discriminate|].
  destruct (permission_of_value v) eqn:E2; [discriminate|].
  assert (N : forall k, nth_error toks (length pre + k) =
                        nth_error (attr_item_tokens (n, v, c) ++ tail)%list k).
  { intros k; unfold toks; rewrite Nat.add_comm; apply nth_error_after. }
  cbn [parse_attribute_list]; rewrite pbind_cur_step; cbn [ttype TokenType_beq negb].
  rewrite (eat_step _ _ _ _ (mkToken ASSIGN "=" 1 1)) by
    (reflexivity || (rewrite <- Nat.add_1_r, N; reflexivity)).
  rewrite (eat_step _ _ _ _ (mkToken STRING v 1 1)) by
    (reflexivity || (replace (S (S (length pre))) with (length pre + 2) by lia;
                     rewrite N; reflexivity)).
  rewrite (pbind_ok_step _ _ _ (AStr v)
             (mkPState (S (S (S (length pre)))) (Some (token_at toks (S (S (S (length pre)))))))).
  2: { rewrite pav_string by reflexivity; cbn [tvalue]; rewrite E1, E2; reflexivity. }
  destruct c.
  - assert (T3 : token_at toks (S (S (S (length pre)))) = mkToken COMMA "," 1 1).
    { unfold token_at; replace (S (S (S (length pre)))) with (length pre + 3) by lia.
      rewrite N; reflexivity. }
    rewrite T3, pbind_cur_step; cbn [ttype TokenType_beq].
    unfold pbind at 1; rewrite eat_run by reflexivity.
    unfold q; cbn [attr_item_tokens app length].
    replace (length pre + 4) with (S (S (S (S (length pre))))) by lia; reflexivity.
  - assert (Hq : q = S (S (S (length pre)))) by (unfold q; cbn; lia).
    rewrite <- Hq.
    specialize (Hc eq_refl).
    rewrite pbind_cur_step.
    destruct (TokenType_beq (ttype (token_at toks q)) COMMA) eqn:Ec.
    { apply internal_TokenType_dec_bl in Ec; contradiction. }
    reflexivity.
Qed.

Lemma pal_items rest items :
  Forall (fun it => let '(_, v, _) := it in plain_string_value v = true) items ->
  forall pre acc f, length items < f ->
  let toks := (pre ++ flat_map attr_item_tokens items ++ mkToken RPAREN ")" 1 1 :: rest)%list in
  parse_attribute_list toks f acc (mkPState (length pre) (Some (token_at toks (length pre)))) =
  POk (fold_left (fun acc it => let '(n, v, _) := it in dict_set n (AStr v) acc) items acc)
      (mkPState (length pre + length (flat_map attr_item_tokens items))
                (Some (mkToken RPAREN ")" 1 1))).
Proof.
  induction 1 as [|[[n v] c] items Hv Hall IH]; intros pre acc f Hf toks.
  - destruct f as [|f]; [cbn in Hf; lia|].
    unfold toks; rewrite <- (Nat.add_0_r (length pre)) at 2; rewrite token_at_after.
    cbn [flat_map app nth_error parse_attribute_list]; rewrite pbind_cur_step.
    rewrite Nat.add_0_r; reflexivity.
  - destruct f as [|f]; [cbn in Hf; lia|].
    set (tail := (flat_map attr_item_tokens items ++ mkToken RPAREN ")" 1 1 :: rest)%list).
    assert (Ht : toks = (pre ++ attr_item_tokens (n, v, c) ++ tail)%list).
    { unfold toks, tail; cbn [flat_map]; rewrite <- !app_assoc; reflexivity. }
    rewrite Ht.
    rewrite <- (Nat.add_0_r (length pre)) at 2; rewrite token_at_after.
    replace (match nth_error (attr_item_tokens (n, v, c) ++ tail)%list 0 with
             | Some t => t | None => eof_default end)
      with (mkToken IDENTIFIER n 1 1) by (destruct c; reflexivity).
    rewrite (pal_item pre n v c tail f acc Hv).
    2: { intros ->; unfold tail; rewrite token_at_after; cbn [attr_item_tokens app length].
         destruct items as [|[[n' v'] c'] items']; cbn; discriminate. }
    specialize (IH (pre ++ attr_item_tokens (n, v, c))%list (dict_set n (AStr v) acc) f
                  ltac:(cbn in Hf; lia)).
    cbv zeta in IH; rewrite <- app_assoc in IH; fold tail in IH.
    rewrite length_app in IH; rewrite IH.
    cbn [flat_map fold_left]; rewrite length_app, Nat.add_assoc; reflexivity.
Qed.

(** X11 (parse_attributes_strings): For an attribute list of name = "string" items whose values are neither file type names nor permission literals, parse_attributes accepts commas between items as optional (a trailing comma too) and returns the dictionary in which a repeated name keeps its first position and takes its last value. *)
Theorem parse_attributes_strings pre items rest fuel :
  Forall (fun it => let '(_, v, _) := it in plain_string_value v = true) items ->
  length items < fuel ->
  let toks := (pre ++ mkToken LPAREN "(" 1 1 :: flat_map attr_item_tokens items
               ++ mkToken RPAREN ")" 1 1 :: rest)%list in
  let q := S (S (length pre + length (flat_map attr_item_tokens items))) in
  parse_attributes toks fuel (mkPState (length pre) (Some (mkToken LPAREN "(" 1 1))) =
  POk (attr_items_dict items) (mkPState q (Some (token_at toks q))).
Proof.
  intros Hall Hf toks q.
  assert (Ht : toks = ((pre ++ [mkToken LPAREN "(" 1 1]) ++ flat_map attr_item_tokens items
                       ++ mkToken RPAREN ")" 1 1 :: rest)%list).
  { unfold toks; rewrite <- app_assoc; reflexivity. }
  unfold parse_attributes, pbind at 1; rewrite eat_run by reflexivity.
  pose proof (pal_items rest items Hall (pre ++ [mkToken LPAREN "(" 1 1])%list [] fuel Hf)
    as P; cbv zeta in P; rewrite <- Ht, length_app in P; cbn [length] in P.
  rewrite Nat.add_1_r in P; cbv beta iota.
  rewrite (pbind_ok_step _ _ _ _ _ P).
  unfold pbind; rewrite eat_run by reflexivity.
  unfold q; rewrite Nat.add_succ_l; reflexivity.
Qed.

Lemma parse_attributes_strings_witness :
  attr_items_dict [("name", "a", true); ("mode", "x", false); ("name", "b", true)] =
  [("name", AStr "b"); ("mode", AStr "x")] /\
  exists s,
  parse_attributes
    (mkToken LPAREN "(" 1 1 :: flat_map attr_item_tokens
       [("name", "a", true); ("mode", "x", false); ("name", "b", true)]
     ++ [mkToken RPAREN ")" 1 1])%list 4
    (mkPState 0 (Some (mkToken LPAREN "(" 1 1))) =
  POk [("name", AStr "b"); ("mode", AStr "x")] s.
Proof.
  split; [reflexivity|].
  eexists.
  exact (parse_attributes_strings []
           [("name", "a", true); ("mode", "x", false); ("name", "b", true)] [] 4
           ltac:(repeat constructor) ltac:(cbn; lia)).
Defined.

(** ** What generation keeps and writes *)

Lemma grows_refl st : grows st st.
Proof. repeat split; auto. exists []; rewrite app_nil_r; reflexivity. Qed.

Lemma grows_trans a b c : grows a b -> grows b c -> grows a c.
Proof.
  intros [F1 [D1 [o1 O1]]] [F2 [D2 [o2 O2]]]; repeat split; auto.
  exists (o1 ++ o2)%list; rewrite O2, O1, app_assoc; reflexivity.
Qed.

Lemma grows_print_raw msg st : grows st (print_raw msg st).
Proof. repeat split; auto. exists [msg]; reflexivity. Qed.

Lemma grows_print_line msg st : grows st (print_line msg st).
Proof. apply grows_print_raw. Qed.

Lemma grows_add_attr_call c st : grows st (add_attr_call c st).
Proof. repeat split; auto. exists []; cbn; rewrite app_nil_r; reflexivity. Qed.

Lemma grows_set_variables vs st : grows st (set_variables vs st).
Proof. repeat split; auto. exists []; cbn; rewrite app_nil_r; reflexivity. Qed.

Lemma grows_set_var k v st : grows st (set_var k v st).
Proof. apply grows_set_variables. Qed.

Lemma grows_set_stdin inp st : grows st (set_stdin inp st).
Proof. repeat split; auto. exists []; cbn; rewrite app_nil_r; reflexivity. Qed.

Lemma makedirs_files p st st' : makedirs p st = Some st' -> files st' = files st.
Proof.
  unfold makedirs; destruct (String.eqb p ""); [discriminate|].
  destruct (existsb _ _); [discriminate|]; intros H; injection H as <-; reflexivity.
Qed.

Lemma makedirs_stdout p st st' : makedirs p st = Some st' -> stdout st' = stdout st.
Proof.
  unfold makedirs; destruct (String.eqb p ""); [discriminate|].
  destruct (existsb _ _); [discriminate|]; intros H; injection H as <-; reflexivity.
Qed.

Lemma grows_makedirs p st st' : makedirs p st = Some st' -> grows st st'.
Proof.
  unfold makedirs; destruct (String.eqb p ""); [discriminate|].
  destruct (existsb _ _); [discriminate|]; intros H; injection H as <-.
  repeat split; auto.
  - intros d Hd; cbn; apply in_or_app; left; exact Hd.
  - exists []; cbn; rewrite app_nil_r; reflexivity.
Qed.

Lemma is_file_set p k fd st ds :
  is_file st p = true -> is_file (set_fs (dict_set k fd (files st)) ds st) p = true.
Proof.
  unfold is_file; cbn [files set_fs].
  destruct (String.eqb p k) eqn:E.
  - apply String.eqb_eq in E; subst; rewrite dict_get_set_same; auto.
  - apply String.eqb_neq in E; rewrite dict_get_set_other by exact E; auto.
Qed.

Lemma grows_try_chmod path m st : grows st (try_chmod path m st).
Proof. unfold try_chmod; destruct (_ && _); [apply grows_add_attr_call|apply grows_refl]. Qed.

Lemma grows_apply_file_attributes path attrs st :
  grows st (apply_file_attributes path attrs st).
Proof.
  unfold apply_file_attributes.
  assert (H1 : grows st (match dict_get "permissions" attrs with
             | Some p => if py_truthy p then
                           match parse_octal (py_str_attr p) with
                           | Some m => try_chmod path m st
                           | None => st end
                         else st
             | None => st end)).
  { destruct (dict_get _ _) as [p|]; [|apply grows_refl].
    destruct (py_truthy p); [|apply grows_refl].
    destruct (parse_octal _); [apply grows_try_chmod|apply grows_refl]. }
  destruct (py_truthy _); [|exact H1].
  exact (grows_trans _ _ _ H1 (grows_add_attr_call _ _)).
Qed.

Lemma grows_create_file encodes path content attrs st st' :
  create_file encodes path content attrs st = Some st' -> grows st st'.
Proof.
  unfold create_file.
  destruct (_ && _).
  { intros H; injection H as <-; apply grows_print_line. }
  destruct (makedirs _ st) as [st1|] eqn:M; [|discriminate].
  destruct (negb _ || _); [discriminate|].
  intros H.
  assert (G : grows st (apply_file_attributes path attrs
                (set_fs (dict_set path {| fd_content := content;
                     fd_encoding := py_str_attr (attr_get attrs "encoding" (AStr "utf-8")) |}
                   (files st1)) (dirs st1) st1))).
  { refine (grows_trans _ _ _ (grows_makedirs _ _ _ M) _).
    refine (grows_trans _ _ _ _ (grows_apply_file_attributes _ _ _)).
    repeat split; auto.
    - intros p Hp; apply is_file_set; exact Hp.
    - exists []; cbn; rewrite app_nil_r; reflexivity. }
  destruct (attr_get attrs "type" _); try discriminate;
    injection H as <-; exact (grows_trans _ _ _ G (grows_print_line _ _)).
Qed.

Lemma grows_generate_file re_match encodes cfg cur name attrs now now_iso st st' :
  generate_file re_match encodes cfg cur name attrs now now_iso st = Some st' ->
  grows st st'.
Proof.
  unfold generate_file.
  destruct (apply_template_vars name _); [|discriminate].
  destruct (get_file_content _ _ _ _ _); [|discriminate].
  destruct (apply_template_vars _ _); [|discriminate].
  apply grows_create_file.
Qed.

Lemma grows_create_folder path attrs st st' :
  create_folder path attrs st = Some st' -> grows st st'.
Proof.
  unfold create_folder.
  destruct (makedirs path st) as [st1|] eqn:M; [|discriminate].
  intros H; injection H as <-.
  refine (grows_trans _ _ _ (grows_makedirs _ _ _ M) _).
  destruct (attr_get attrs "permissions" _) as [s| | | | |];
    try apply grows_print_line.
  destruct (parse_octal s).
  - exact (grows_trans _ _ _ (grows_try_chmod _ _ _) (grows_print_line _ _)).
  - apply grows_print_line.
Qed.

Lemma grows_restore_var name old st st' :
  restore_var name old st = Some st' -> grows st st'.
Proof.
  destruct old; cbn.
  - intros H; injection H as <-; apply grows_set_var.
  - destruct (dict_del _ _); [|discriminate].
    intros H; injection H as <-; apply grows_set_variables.
Qed.

Lemma exec_node_grows re_match encodes cfg cur n st st' :
  exec_node re_match encodes cfg cur n st st' -> grows st st'.
Proof.
  intros H.
  refine (exec_node_mut re_match encodes cfg (fun _ _ st st' _ => grows st st')
           (fun _ _ st st' _ => grows st st')
           (fun _ _ _ _ st st' _ => grows st st') _ _ _ _ _ _ _ _ _ cur n st st' H);
    clear cur n st st' H.
  - intros; eapply grows_generate_file; eassumption.
  - intros; eapply grows_trans; [eapply grows_create_folder; eassumption|assumption].
  - intros; assumption.
  - intros; apply grows_print_raw.
  - intros; exact (grows_trans _ _ _ (grows_set_stdin _ _) (grows_set_var _ _ _)).
  - intros; apply grows_refl.
  - intros; eapply grows_trans; eassumption.
  - intros; apply grows_refl.
  - intros cur var_name children value values st st1 st2 st3 _ G1 R _ G3.
    refine (grows_trans _ _ _ (grows_set_var _ _ _) _).
    refine (grows_trans _ _ _ G1 _).
    exact (grows_trans _ _ _ (grows_restore_var _ _ _ _ R) G3).
Qed.

Lemma makedirs_chain_dirs p st st' :
  makedirs p st = Some st' ->
  forall d, In d (ancestors_from "" p ++ [p])%list -> is_dir st' d = true.
Proof.
  unfold makedirs; destruct (String.eqb p ""); [discriminate|].
  destruct (existsb _ _); [discriminate|]; intros H; injection H as <-.
  intros d Hd; unfold is_dir at 1; cbn [dirs set_fs]; apply existsb_exists.
  exists d; split; [|apply String.eqb_refl].
  destruct (is_dir st d) eqn:E.
  - apply in_or_app; left; unfold is_dir in E; apply existsb_exists in E.
    destruct E as [x [Hx Ex]]; apply String.eqb_eq in Ex; subst; exact Hx.
  - apply in_or_app; right; apply filter_In; rewrite E; auto.
Qed.

(** X13 (makedirs_creates_chain): The os.makedirs(path, exist_ok=True) step used when creating folders and files leaves files untouched, keeps every existing directory, makes the path and each of its ancestors a directory, and a second call changes nothing. *)
Theorem makedirs_creates_chain p st st' :
  makedirs p st = Some st' ->
  files st' = files st /\
  (forall d, In d (dirs st) -> In d (dirs st')) /\
  (forall d, In d (ancestors_from "" p ++ [p])%list -> is_dir st' d = true) /\
  makedirs p st' = Some st'.
Proof.
  intros H; split; [exact (makedirs_files _ _ _ H)|].
  split; [exact (proj1 (proj2 (grows_makedirs _ _ _ H)))|].
  split; [exact (makedirs_chain_dirs _ _ _ H)|].
  pose proof (makedirs_chain_dirs _ _ _ H) as C.
  pose proof (makedirs_files _ _ _ H) as F.
  unfold makedirs in H |- *; destruct (String.eqb p ""); [discriminate|].
  destruct (existsb (is_file st) _) eqn:Ex; [discriminate|].
  unfold is_file at 1; rewrite F; fold (is_file st); rewrite Ex.
  assert (Hn : filter (fun d => negb (is_dir st' d)) (ancestors_from "" p ++ [p])%list = []).
  { rewrite (filter_ext_in _ (fun _ => false)); [apply filter_false|].
    intros d Hd; rewrite (C d Hd); reflexivity. }
  rewrite Hn, app_nil_r.
  rewrite <- F; destruct st' as [v f d a o i]; reflexivity.
Qed.

Lemma exec_nodes_grows re_match encodes cfg cur ns st st' :
  exec_nodes re_match encodes cfg cur ns st st' -> grows st st'.
Proof.
  induction 1; [apply grows_refl|].
  eapply grows_trans; [eapply exec_node_grows; eassumption|assumption].
Qed.

Lemma is_dir_grows st st' d : grows st st' -> is_dir st d = true -> is_dir st' d = true.
Proof.
  intros [_ [D _]] H; unfold is_dir in *; apply existsb_exists in H as [x [Hx E]].
  apply existsb_exists; exists x; split; auto.
Qed.

(** X12 (generate_keeps_existing): A completed generate run never deletes a file or directory that existed before, leaves the base path a directory, and prints the start message, then whatever the nodes print, then the completion message, after the earlier output. *)
Theorem generate_keeps_existing re_match encodes cfg base nodes st st' :
  generate re_match encodes cfg base nodes st st' ->
  (forall p, is_file st p = true -> is_file st' p = true) /\
  (forall d, In d (dirs st) -> In d (dirs st')) /\
  is_dir st' base = true /\
  exists out, stdout st' = (stdout st ++ [("Starting file system generation..." ++ nl)%string]
                            ++ out ++ [("Generation completed successfully!" ++ nl)%string])%list.
Proof.
  intros [st0 st1 st2 M E].
  pose proof (grows_makedirs _ _ _ M) as G1.
  pose proof (exec_nodes_grows _ _ _ _ _ _ _ E) as G2.
  pose proof (grows_trans _ _ _ G1 (grows_trans _ _ _ (grows_print_line _ _) G2)) as G.
  pose proof (grows_trans _ _ _ G (grows_print_line "Generation completed successfully!" st2))
    as [F [D _]].
  split; [exact F|]; split; [exact D|]; split.
  - apply (is_dir_grows st1).
    + exact (grows_trans _ _ _ (grows_trans _ _ _ (grows_print_line _ _) G2)
               (grows_print_line _ _)).
    + apply (makedirs_chain_dirs _ _ _ M); apply in_or_app; right; left; reflexivity.
  - destruct G2 as [_ [_ [o2 O2]]].
    exists o2; cbn in O2 |- *; rewrite O2; cbn; rewrite (makedirs_stdout _ _ _ M).
    rewrite <- !app_assoc; reflexivity.
Qed.

Lemma generate_keeps_existing_witness :
  exists st', generate example_re_match utf8_only fsconfig_init "out" [OutputNode "hi"]
                (initial_state "d" "t" [("keep.txt", {| fd_content := "x"; fd_encoding := "utf-8" |})]
                   [] []) st' /\
              is_file st' "keep.txt" = true /\ is_dir st' "out" = true.
Proof.
  assert (Hg : exists st', generate example_re_match utf8_only fsconfig_init "out"
                             [OutputNode "hi"]
                (initial_state "d" "t" [("keep.txt", {| fd_content := "x"; fd_encoding := "utf-8" |})]
                   [] []) st').
  { eexists; econstructor; [reflexivity|].
    econstructor; [econstructor; reflexivity|constructor]. }
  destruct Hg as [st' Hg]; exists st'; split; [exact Hg|].
  destruct (generate_keeps_existing _ _ _ _ _ _ _ Hg) as [F [_ [D _]]].
  split; [apply F; reflexivity | exact D].
Defined.

Lemma makedirs_creates_chain_witness :
  exists st', makedirs "a/b" (initial_state "d" "t" [] [] []) = Some st' /\
              is_dir st' "a" = true /\ is_dir st' "a/b" = true /\
              makedirs "a/b" st' = Some st'.
Proof.
  assert (M : exists st', makedirs "a/b" (initial_state "d" "t" [] [] []) = Some st')
    by (eexists; reflexivity).
  destruct M as [st' M]; exists st'; split; [exact M|].
  destruct (makedirs_creates_chain _ _ _ M) as [_ [_ [C I]]].
  split; [apply C; left; reflexivity|]; split; [apply C; right; left; reflexivity|exact I].
Defined.

Lemma apply_file_attributes_files path attrs st :
  files (apply_file_attributes path attrs st) = files st.
Proof.
  unfold apply_file_attributes.
  destruct (py_truthy (attr_get attrs "executable" _)); cbn [add_attr_call files];
  destruct (dict_get "permissions" attrs) as [p|]; try reflexivity;
  destruct (py_truthy p); try reflexivity; destruct (parse_octal _) as [m|]; try reflexivity;
  unfold try_chmod; destruct (_ && _); reflexivity.
Qed.

Lemma encoding_ok_true encodes ty enc content :
  encoding_ok encodes ty enc content = true ->
  (exists e, enc = AStr e /\ encodes (Some e) content = true) \/
  (enc = ANull /\ ty <> AFileType BINARY /\ encodes None content = true).
Proof.
  unfold encoding_ok; destruct ty as [| | | |[]|], enc; intros H;
    try discriminate H; try (left; eexists; split; [reflexivity|exact H]);
    right; repeat split; try exact H; discriminate.
Qed.

(** X14 (create_file_result): When _create_file returns, either the path existed and replaceifexists was falsy and only the skip message was printed, or the path now holds the given content with the given encoding (default utf-8), every other file is unchanged, the type attribute was a FileType or a Permission, and the encoding was a str whose codec can write the content, or None (the locale's codec) for a file that is not binary. *)
Theorem create_file_result encodes path content attrs st st' :
  create_file encodes path content attrs st = Some st' ->
  (path_exists st path = true /\
   py_truthy (attr_get attrs "replaceifexists" (ABool true)) = false /\
   st' = print_line (skip_message path) st) \/
  (dict_get path (files st') =
     Some {| fd_content := content;
             fd_encoding := py_str_attr (attr_get attrs "encoding" (AStr "utf-8")) |} /\
   (forall p, p <> path -> dict_get p (files st') = dict_get p (files st)) /\
   ((exists t, attr_get attrs "type" (AFileType TEXT) = AFileType t) \/
    (exists pm, attr_get attrs "type" (AFileType TEXT) = APerm pm)) /\
   ((exists e, attr_get attrs "encoding" (AStr "utf-8") = AStr e /\
               encodes (Some e) content = true) \/
    (attr_get attrs "encoding" (AStr "utf-8") = ANull /\
     attr_get attrs "type" (AFileType TEXT) <> AFileType BINARY /\
     encodes None content = true))).
Proof.
  unfold create_file.
  destruct (path_exists st path) eqn:Ep, (py_truthy (attr_get attrs "replaceifexists" _)) eqn:Er;
    cbn [andb negb];
    try (intros H; injection H as <-; left; auto; fail).
  all: destruct (makedirs _ st) as [st1|] eqn:M; [|discriminate].
  all: destruct (encoding_ok encodes _ _ content) eqn:Eok; cbn [negb orb]; [|discriminate].
  all: destruct (is_dir st1 path); [discriminate|].
  all: apply encoding_ok_true in Eok.
  all: destruct (attr_get attrs "type" _) as [| | | |t|pm] eqn:Et; try discriminate.
  all: intros H; injection H as <-; right.
  all: cbn [print_line print_raw files]; rewrite apply_file_attributes_files; cbn [set_fs files].
  all: rewrite (makedirs_files _ _ _ M).
  all: split; [apply dict_get_set_same|]; split; [|split; [eauto|exact Eok]].
  all: intros p Hp; apply dict_get_set_other; exact Hp.
Qed.

Lemma create_file_result_witness :
  exists st', create_file utf8_only "out/a.txt" "hello" [("type", APerm EXECUTABLE)]
                (initial_state "d" "t" [] [] []) = Some st' /\
              dict_get "out/a.txt" (files st') =
                Some {| fd_content := "hello"; fd_encoding := "utf-8" |}.
Proof.
  assert (M : exists st', create_file utf8_only "out/a.txt" "hello" [("type", APerm EXECUTABLE)]
                (initial_state "d" "t" [] [] []) = Some st') by (eexists; reflexivity).
  destruct M as [st' M]; exists st'; split; [exact M|].
  destruct (create_file_result _ _ _ _ _ _ M) as [[E _]|[F _]].
  - discriminate E.
  - exact F.
Defined.





Lemma dict_get_not_in {V} k (d : dict V) : ~ In k (map fst d) -> dict_get k d = None.
Proof.
  induction d as [|[k' v] d IH]; intros H; [reflexivity|]; cbn in H |- *.
  destruct (String.eqb k k') eqn:E.
  - apply String.eqb_eq in E; subst; exfalso; apply H; left; reflexivity.
  - apply IH; intros I; apply H; right; exact I.
Qed.

Lemma dict_update_get {V} (d : dict V) : NoDup (map fst d) ->
  forall base k, dict_get k (dict_update base d) =
                 match dict_get k d with Some v => Some v | None => dict_get k base end.
Proof.
  unfold dict_update; induction d as [|[k' v] d IH]; intros ND base k; [reflexivity|].
  cbn [map fst] in ND; inversion ND as [|? ? Nin ND']; subst.
  cbn [fold_left dict_get fst snd]; rewrite (IH ND').
  destruct (String.eqb k k') eqn:E.
  - apply String.eqb_eq in E; subst.
    rewrite (dict_get_not_in _ _ Nin), dict_get_set_same; reflexivity.
  - apply String.eqb_neq in E; rewrite dict_get_set_other by exact E; reflexivity.
Qed.

(** X17 (load_from_dict_defaults): After load_from_dict with a defaults section, file_contents and templates are the given sections and each default reads the section's value when the section has the key, else the previous default. *)
Theorem load_from_dict_defaults c fc tpl d :
  NoDup (map fst d) ->
  let c' := fsconfig_load_from_dict c fc tpl d in
  file_contents c' = fc /\ templates c' = tpl /\
  forall k, dict_get k (defaults c') =
            match dict_get k d with Some v => Some v | None => dict_get k (defaults c) end.
Proof.
  intros ND c'; split; [reflexivity|]; split; [reflexivity|].
  intros k; apply dict_update_get; exact ND.
Qed.

Lemma load_from_dict_defaults_witness :
  dict_get "encoding" (defaults (fsconfig_load_from_dict fsconfig_init [] []
                                  [("encoding", AStr "cp1251")])) = Some (AStr "cp1251") /\
  dict_get "permissions" (defaults (fsconfig_load_from_dict fsconfig_init [] []
                                  [("encoding", AStr "cp1251")])) = Some (AStr "644").
Proof.
  destruct (load_from_dict_defaults fsconfig_init [] [] [("encoding", AStr "cp1251")]
              ltac:(repeat constructor; cbn; tauto)) as [_ [_ G]].
  split; [exact (G "encoding") | exact (G "permissions")].
Defined.

Lemma conditionals_scan_plain ev context s fuel :
  has_sub "{if" s = false -> conditionals_scan ev context s fuel = (s, []).
Proof.
  revert fuel; induction s as [|c s IH]; intros fuel H; destruct fuel; try reflexivity.
  - cbn [has_sub] in H; apply orb_false_iff in H as [P H].
    cbn [conditionals_scan]; unfold match_if; rewrite P.
    rewrite (IH fuel H); reflexivity.
Qed.

(** X18 (process_conditionals_plain): A template that does not contain '{if' passes through _process_conditionals unchanged and no condition is handed to eval. *)
Theorem process_conditionals_plain ev context s :
  has_sub "{if" s = false -> process_conditionals ev context s = (s, []).
Proof. intros H; apply conditionals_scan_plain; exact H. Qed.

Lemma process_conditionals_plain_witness :
  process_conditionals (fun _ => None) [("x", "1")] "if x {endif}" = ("if x {endif}", []).
Proof. apply process_conditionals_plain; reflexivity. Defined.
